(** * octocov, package [config]: acceptability thresholds, badge colours
      and the [if:] gate

    A shallow embedding of [config/config.go]:
    - [coverageAcceptable], [codeToTestRatioAcceptable] and
      [testExecutionTimeAcceptable] (threshold checks),
    - [CoverageColor], [CodeToTestRatioColor], [TestExecutionTimeColor]
      (badge colours),
    - [CheckIf] and [envMap] (gate expressions).

    Go's [float64] is Rocq's primitive binary64 [float]; [time.Duration]
    and [int] are [Z]; [string] is [string] (a sequence of bytes);
    a function returning [(T, error)] returns a pair [T * option error]
    and [nil] is [None].

    Of the other packages, [strings], [fmt]'s [%.1f] and [Duration.String]
    are written out.  [strconv.ParseFloat], [duration.Parse], the conversion
    of a [float64] to a [Duration], package [gh], the clock, the process
    environment and [expr.Eval] are arguments of the definitions that call
    them; executable reference instances are given for closed examples. *)

From Stdlib Require Import ZArith Lia Bool List Ascii String Floats DecimalString.
From stdpp Require Import gmap strings.

Set Warnings "-inexact-float,-register-all".
Local Open Scope string_scope.
Local Open Scope Z_scope.

(** ** Go values shared by the definitions below *)

(** [error]: what the code builds with [fmt.Errorf], what [strconv]
    returns, and errors of the other collaborators. *)
Inductive error : Type :=
| Errorf (msg : string)
| NumError (Func Num Err : string)
| ForeignError (pkg msg : string).

Definition dquote : ascii := ascii_of_nat 34.

(** The text of an error ([err.Error()]). *)
Definition Error (e : error) : string :=
  match e with
  | Errorf msg => msg
  | NumError f n e =>
      "strconv." ++ f ++ ": parsing " ++ String dquote n ++ String dquote (": " ++ e)
  | ForeignError _ msg => msg
  end.

(** ** Package [strings] *)

Module strings.

(** [s[i:j]] *)
Definition slice (s : string) (i j : nat) : string := substring i (j - i) s.

(** [len(s) >= len(prefix) && s[:len(prefix)] == prefix] *)
Definition HasPrefix (s prefix : string) : bool :=
  (String.length prefix <=? String.length s)%nat
  && String.eqb (slice s 0 (String.length prefix)) prefix.

(** [len(s) >= len(suffix) && s[len(s)-len(suffix):] == suffix] *)
Definition HasSuffix (s suffix : string) : bool :=
  (String.length suffix <=? String.length s)%nat
  && String.eqb (slice s (String.length s - String.length suffix) (String.length s)) suffix.

Definition TrimPrefix (s prefix : string) : string :=
  if HasPrefix s prefix then slice s (String.length prefix) (String.length s) else s.

Definition TrimSuffix (s suffix : string) : string :=
  if HasSuffix s suffix then slice s 0 (String.length s - String.length suffix) else s.

(** [Index(s, substr) >= 0], by scanning the start positions. *)
Fixpoint Contains (s substr : string) : bool :=
  HasPrefix s substr
  || match s with
     | EmptyString => false
     | String _ t => Contains t substr
     end.

(** [SplitN(s, sep, 2)] for a one-byte separator: [None] stands for the
    one-element result [[s]] (no separator in [s]), [Some (a, b)] for
    [[a, b]], split at the first occurrence. *)
Fixpoint SplitN2 (s : string) (sep : ascii) : option (string * string) :=
  match s with
  | EmptyString => None
  | String c t =>
      if Ascii.eqb c sep then Some (EmptyString, t)
      else match SplitN2 t sep with
           | Some (a, b) => Some (String c a, b)
           | None => None
           end
  end.

End strings.

(** ** [float64] *)

Module Float64.

(** Go's [x >= y] and [x > y] on [float64] (IEEE 754: false when either
    side is NaN). *)
Definition geb (x y : float) : bool := PrimFloat.leb y x.
Definition gtb (x y : float) : bool := PrimFloat.ltb y x.

(** The conversion [float64(n)] of an integer: the nearest binary64 value,
    ties to even. *)
Definition of_int (n : Z) : float := SF2Prim (binary_normalize prec emax n 0 false).

Definition is_nan (x : float) : bool := PrimFloat.is_nan x.

End Float64.

(** ** Package [fmt]: the verb [%.1f] *)

Module fmt.

Definition itoa (z : Z) : string := NilZero.string_of_uint (N.to_uint (Z.to_N z)).

(** [n / d] rounded to the nearest integer, ties to the even one
    ([n >= 0], [d > 0]). *)
Definition round_half_even (n d : Z) : Z :=
  let q := n / d in
  match 2 * (n mod d) ?= d with
  | Lt => q
  | Gt => q + 1
  | Eq => if Z.even q then q else q + 1
  end.

(** [|x| * 10] rounded to an integer, for [|x| = m * 2^e]. *)
Definition tenths (m : positive) (e : Z) : Z :=
  match e with
  | Zneg k => round_half_even (10 * Zpos m) (2 ^ Zpos k)
  | _ => 10 * Zpos m * 2 ^ e
  end.

Definition fixed1 (t : Z) : string := itoa (t / 10) ++ "." ++ itoa (t mod 10).

(** [fmt.Sprintf("%.1f", x)]: the exact decimal value of [x] rounded to one
    digit after the point. *)
Definition Sprintf_f1 (x : float) : string :=
  match Prim2SF x with
  | S754_nan => "NaN"
  | S754_infinity false => "+Inf"
  | S754_infinity true => "-Inf"
  | S754_zero s => (if s then "-" else "") ++ "0.0"
  | S754_finite s m e => (if s then "-" else "") ++ fixed1 (tenths m e)
  end.

End fmt.

(** ** Package [strconv]: a reference instance of [ParseFloat(s, 64)]

    Decimal literals [[+-]digits[.digits][e[+-]digits]] and the special
    names [inf], [infinity], [nan] (any case), converted with correct
    rounding.  Hexadecimal literals and digit-separating underscores, which
    Go also accepts, are outside this instance (reported as syntax errors);
    the theorems below quantify over the parser and use this instance only
    at closed inputs. *)

Module strconv.

Definition is_digit (c : ascii) : bool :=
  (48 <=? nat_of_ascii c)%nat && (nat_of_ascii c <=? 57)%nat.

Definition digit (c : ascii) : Z := Z.of_nat (nat_of_ascii c) - 48.

Definition lower (c : ascii) : ascii :=
  let n := nat_of_ascii c in
  if (65 <=? n)%nat && (n <=? 90)%nat then ascii_of_nat (n + 32) else c.

Fixpoint lower_string (s : string) : string :=
  match s with
  | EmptyString => EmptyString
  | String c t => String (lower c) (lower_string t)
  end.

(** The exponent digits of [readFloat]: [e] stops growing at 10000. *)
Fixpoint read_exp_digits (s : string) (e : Z) : option Z :=
  match s with
  | EmptyString => Some e
  | String c t =>
      if is_digit c then read_exp_digits t (if e <? 10000 then e * 10 + digit c else e)
      else None
  end.

(** At least one exponent digit. *)
Definition read_exp_number (s : string) : option Z :=
  match s with
  | EmptyString => None
  | String d _ => if is_digit d then read_exp_digits s 0 else None
  end.

(** The part after the mantissa: nothing, or [e], an optional sign and at
    least one digit.  Returns the decimal exponent. *)
Definition read_exp (s : string) : option Z :=
  match s with
  | EmptyString => Some 0
  | String c t =>
      if Ascii.eqb (lower c) "e" then
        match t with
        | EmptyString => None
        | String d u =>
            if Ascii.eqb d "+" then read_exp_number u
            else if Ascii.eqb d "-" then option_map Z.opp (read_exp_number u)
            else read_exp_number t
        end
      else None
  end.

(** The mantissa loop of [readFloat]: digits with at most one point.
    [mant] is the integer read so far and [dp] the number of digits read
    after the point. *)
Fixpoint read_mantissa (s : string) (sawdot sawdigits : bool) (mant dp : Z)
  : option (Z * Z) :=
  match s with
  | EmptyString => if sawdigits then Some (mant, - dp) else None
  | String c t =>
      if is_digit c then
        read_mantissa t sawdot true (10 * mant + digit c) (if sawdot then dp + 1 else dp)
      else if Ascii.eqb c "." then
        if sawdot then None else read_mantissa t true sawdigits mant dp
      else if sawdigits then
        match read_exp s with
        | Some e => Some (mant, e - dp)
        | None => None
        end
      else None
  end.

(** The binary64 value nearest to [m * 10^e] ([m > 0]), ties to even. *)
Definition decimal_to_SF (neg : bool) (m : positive) (e : Z) : spec_float :=
  match e with
  | Zneg k =>
      let d := 10 ^ Zpos k in
      let s := 64 + Z.log2_up d in
      let n := Zpos m * 2 ^ s in
      let q := n / d in
      let r := n mod d in
      let l := if r =? 0 then loc_Exact else loc_Inexact (2 * r ?= d) in
      binary_round_aux prec emax neg q (- s) l
  | _ => binary_normalize prec emax (if neg then - (Zpos m * 10 ^ e) else Zpos m * 10 ^ e) 0 neg
  end.

Definition ErrSyntax : string := "invalid syntax".
Definition ErrRange : string := "value out of range".

(** The unsigned part of a literal. *)
Definition parse_unsigned (neg : bool) (orig s : string) : float * option error :=
  let l := lower_string s in
  if String.eqb l "inf" || String.eqb l "infinity" then
    (if neg then neg_infinity else infinity, None)
  else
    match read_mantissa s false false 0 0 with
    | Some (Zpos m, e) =>
        match decimal_to_SF neg m e with
        | S754_infinity sg =>
            (if sg then neg_infinity else infinity, Some (NumError "ParseFloat" orig ErrRange))
        | f => (SF2Prim f, None)
        end
    | Some (_, _) => (if neg then neg_zero else zero, None)
    | None => (zero, Some (NumError "ParseFloat" orig ErrSyntax))
    end.

Definition ParseFloat (s : string) : float * option error :=
  if String.eqb (lower_string s) "nan" then (nan, None)
  else
    match s with
    | EmptyString => parse_unsigned false s s
    | String c t =>
        if Ascii.eqb c "+" then parse_unsigned false s t
        else if Ascii.eqb c "-" then parse_unsigned true s t
        else parse_unsigned false s s
    end.

End strconv.

(** ** Package [time]: [Duration] *)

Module time.

(** A [Duration] is an [int64] count of nanoseconds. *)
Definition Duration : Type := Z.

Definition Nanosecond : Duration := 1.
Definition Microsecond : Duration := 1000 * Nanosecond.
Definition Millisecond : Duration := 1000 * Microsecond.
Definition Second : Duration := 1000 * Millisecond.
Definition Minute : Duration := 60 * Second.
Definition Hour : Duration := 60 * Minute.

(** [fmtFrac]: the last [prec] decimal digits of [v] as a fraction without
    trailing zeros (with its point, or nothing at all), and [v / 10^prec]. *)
Fixpoint fmtFrac (prec : nat) (v : Z) (print : bool) (acc : string) : string * Z :=
  match prec with
  | O => ((if print then "." else "") ++ acc, v)
  | S p =>
      let digit := v mod 10 in
      let print' := print || negb (digit =? 0) in
      fmtFrac p (v / 10) print' (if print' then fmt.itoa digit ++ acc else acc)
  end.

(** The two bytes of the micro sign. *)
Definition micro : string := String (ascii_of_nat 194) (String (ascii_of_nat 181) "").

(** [Duration.String], what [%v] prints for a [Duration]. *)
Definition Duration_String (d : Duration) : string :=
  let u := Z.abs d in
  let body :=
    if u <? Second then
      if u =? 0 then "0s"
      else if u <? Microsecond then fmt.itoa u ++ "ns"
      else if u <? Millisecond then
        let '(f, v) := fmtFrac 3 u false "" in fmt.itoa v ++ f ++ micro ++ "s"
      else
        let '(f, v) := fmtFrac 6 u false "" in fmt.itoa v ++ f ++ "ms"
    else
      let '(f, v) := fmtFrac 9 u false "" in
      let secs := fmt.itoa (v mod 60) ++ f ++ "s" in
      let v := v / 60 in
      if 0 <? v then
        let mins := fmt.itoa (v mod 60) ++ "m" in
        let v := v / 60 in
        if 0 <? v then fmt.itoa v ++ "h" ++ mins ++ secs else mins ++ secs
      else secs in
  if d <? 0 then "-" ++ body else body.

(** A reference instance of the conversion [time.Duration(t)] of a
    [float64]: the fraction is discarded; a value outside [int64] (or NaN),
    whose conversion Go leaves to the implementation, gives the least
    [int64], as on amd64. *)
Definition Duration_of_float64 (t : float) : Duration :=
  let z :=
    match Prim2SF t with
    | S754_finite s m (Zneg k) => (if s then -1 else 1) * (Zpos m / 2 ^ Zpos k)
    | S754_finite s m e => (if s then -1 else 1) * (Zpos m * 2 ^ e)
    | S754_zero _ => 0
    | _ => - 2 ^ 63
    end in
  if (- 2 ^ 63 <=? z) && (z <? 2 ^ 63) then z else - 2 ^ 63.

End time.

(** ** Package [duration]: a reference instance of [duration.Parse]

    Literals made of one or more [<digits><unit>] groups with the units
    [w], [d], [h], [m], [s], as in ["10m"] or ["1h30m"].  The theorems
    below quantify over the parser and use this instance only at closed
    inputs. *)

Module duration.

Definition unit_of (c : ascii) : option Z :=
  if Ascii.eqb c "w" then Some (7 * 24 * time.Hour)
  else if Ascii.eqb c "d" then Some (24 * time.Hour)
  else if Ascii.eqb c "h" then Some time.Hour
  else if Ascii.eqb c "m" then Some time.Minute
  else if Ascii.eqb c "s" then Some time.Second
  else None.

(** [total] is the sum of the groups read so far; [n] is the number being
    read, when the current group has started. *)
Fixpoint groups (s : string) (total : Z) (n : option Z) : option Z :=
  match s with
  | EmptyString => match n with None => Some total | Some _ => None end
  | String c t =>
      if strconv.is_digit c then
        groups t total (Some (10 * default 0 n + strconv.digit c))
      else
        match n, unit_of c with
        | Some k, Some u => groups t (total + k * u) None
        | _, _ => None
        end
  end.

Definition Parse (s : string) : time.Duration * option error :=
  match s with
  | EmptyString => (0, Some (ForeignError "duration" "invalid duration"))
  | _ =>
      match groups s 0 None with
      | Some d => (d, None)
      | None => (0, Some (ForeignError "duration" "invalid duration"))
      end
  end.

End duration.

(** ** [config.go]: acceptability checks *)

Section Acceptable.

(** [strconv.ParseFloat(s, 64)], [duration.Parse] and the conversion
    [time.Duration(t)] of a [float64]. *)
Variable ParseFloat : string -> float * option error.
Variable duration_Parse : string -> time.Duration * option error.
Variable Duration_of_float64 : float -> time.Duration.

Definition coverageAcceptable (cov : float) (cond : string) : option error :=
  if String.eqb cond "" then None
  else
    let '(a, err) := ParseFloat (strings.TrimSuffix cond "%") in
    match err with
    | Some e => Some e
    | None =>
        if (cov <? a)%float then
          Some (Errorf ("code coverage is " ++ fmt.Sprintf_f1 cov
                        ++ "%, which is below the accepted " ++ fmt.Sprintf_f1 a ++ "%"))
        else None
    end.

Definition codeToTestRatioAcceptable (ratio : float) (cond : string) : option error :=
  if String.eqb cond "" then None
  else
    let '(a, err) := ParseFloat (strings.TrimPrefix cond "1:") in
    match err with
    | Some e => Some e
    | None =>
        if (ratio <? a)%float then
          Some (Errorf ("code to test ratio is 1:" ++ fmt.Sprintf_f1 ratio
                        ++ ", which is below the accepted 1:" ++ fmt.Sprintf_f1 a))
        else None
    end.

Definition testExecutionTimeAcceptable (t : float) (cond : string) : option error :=
  if String.eqb cond "" then None
  else
    let '(a, err) := duration_Parse cond in
    match err with
    | Some e => Some e
    | None =>
        if Float64.gtb t (Float64.of_int a) then
          Some (Errorf ("test execution time is "
                        ++ time.Duration_String (Duration_of_float64 t)
                        ++ ", which is above the accepted " ++ time.Duration_String a))
        else None
    end.

End Acceptable.

(** ** [config.go]: badge colours *)

Definition green : string := "#97CA00".
Definition yellowgreen : string := "#A4A61D".
Definition yellow : string := "#DFB317".
Definition orange : string := "#FE7D37".
Definition red : string := "#E05D44".

(** The three methods do not read their receiver [c *Config]. *)
Definition CoverageColor (cover : float) : string :=
  if Float64.geb cover 80.0 then green
  else if Float64.geb cover 60.0 then yellowgreen
  else if Float64.geb cover 40.0 then yellow
  else if Float64.geb cover 20.0 then orange
  else red.

Definition CodeToTestRatioColor (ratio : float) : string :=
  if Float64.geb ratio 1.2 then green
  else if Float64.geb ratio 1.0 then yellowgreen
  else if Float64.geb ratio 0.8 then yellow
  else if Float64.geb ratio 0.6 then orange
  else red.

Definition TestExecutionTimeColor (d : time.Duration) : string :=
  if d <? 5 * time.Minute then green
  else if d <? 10 * time.Minute then yellowgreen
  else if d <? 15 * time.Minute then yellow
  else if d <? 20 * time.Minute then orange
  else red.

(** ** [config.go]: the [if:] gate *)

(** Values of Go's [interface{}] that the gate handles: what is put in the
    variables of an expression, and what evaluation returns.  [VMonth] is a
    [time.Month]; [VEnv] a [map[string]string]; [VMap] a
    [map[string]interface{}]. *)
Inductive value : Type :=
| VNil
| VBool (b : bool)
| VInt (n : Z)
| VMonth (n : Z)
| VString (s : string)
| VEnv (m : gmap string string)
| VMap (m : gmap string value).

(** [envMap], as a function of what [os.Environ()] returns.  The body of
    the loop is [envMap_step]. *)
Definition envMap_step (m : gmap string string) (kv : string) : gmap string string :=
  if negb (strings.Contains kv "=") then m
  else
    match strings.SplitN2 kv "=" with
    | None => <[kv := ""]> m
    | Some (k, v) => <[k := v]> m
    end.

Definition envMap (environ : list string) : gmap string string :=
  foldl envMap_step ∅ environ.

(** Package [gh]: the decoded event, a parsed repository identifier and
    the client. *)
Module gh.

Record GitHubEvent := { Name : string; Payload : value }.
Record Repository := { Owner : string; Repo : string }.
Inductive Gh : Type := Client (id : nat).

End gh.

(** [time.Time]: what the gate reads of [time.Now().UTC()]. *)
Record Time := { Year : Z; Month : Z; Day : Z; Hour : Z; Weekday : Z }.

(** The fields of [Config] that [CheckIf] reads or writes; [gh] is a
    pointer, [None] when nil. *)
Record Config := { Repository : string; gh : option gh.Gh }.

(** What the collaborators answer: package [gh], the clock, the process
    environment and [expr.Eval]. *)
Record World := {
  DecodeGitHubEvent : gh.GitHubEvent * option error;
  gh_Parse : string -> gh.Repository * option error;
  gh_New : gh.Gh * option error;
  GetDefaultBranch : gh.Gh -> string -> string -> string * option error;
  DetectCurrentBranch : gh.Gh -> string * option error;
  DetectCurrentPullRequestNumber : gh.Gh -> string -> string -> Z * option error;
  time_Now : Time;
  os_Environ : list string;
  expr_Eval : string -> gmap string value -> value * option error
}.

(** The calls [CheckIf] makes, in order. *)
Inductive call : Type :=
| CallDecodeGitHubEvent
| CallParse (repository : string)
| CallNew
| CallGetDefaultBranch (g : gh.Gh) (owner repo : string)
| CallDetectCurrentBranch (g : gh.Gh)
| CallDetectCurrentPullRequestNumber (g : gh.Gh) (owner repo : string)
| CallNow
| CallEnviron
| CallEval (input : string) (variables : gmap string value).

(** How a call of [CheckIf] ends: it returns [(ok, err)], or the type
    assertion [ok.(bool)] panics on the value it was given. *)
Inductive outcome : Type :=
| Return (ok : bool) (err : option error)
| Panic (v : value).

(** State threaded through [CheckIf]: the receiver and the calls made. *)
Record state := { cfg : Config; calls : list call }.

Inductive step (A : Type) : Type :=
| Next (a : A)
| Exit (o : outcome).
Arguments Next {A} a.
Arguments Exit {A} o.

Definition M (A : Type) : Type := state -> step A * state.

Definition pure {A} (a : A) : M A := fun st => (Next a, st).
Definition exit {A} (o : outcome) : M A := fun st => (Exit o, st).
Definition bind {A B} (m : M A) (k : A -> M B) : M B :=
  fun st =>
    match m st with
    | (Next a, st') => k a st'
    | (Exit o, st') => (Exit o, st')
    end.
Definition perform {A} (c : call) (answer : A) : M A :=
  fun st => (Next answer, {| cfg := cfg st; calls := calls st ++ [c] |}).
Definition get_gh : M (option gh.Gh) := fun st => (Next (gh (cfg st)), st).
Definition set_gh (g : gh.Gh) : M unit :=
  fun st => (Next tt, {| cfg := {| Repository := Repository (cfg st); gh := Some g |};
                         calls := calls st |}).
Definition get_Repository : M string := fun st => (Next (Repository (cfg st)), st).

Notation "x <- m ;; k" := (bind m (fun x => k))
  (at level 100, m at next level, right associativity).
#[warnings="-notation-incompatible-prefix"]
Notation "' p <- m ;; k" := (bind m (fun x => let 'p := x in k))
  (at level 100, p pattern, m at next level, right associativity).

(** The map literal of [CheckIf]. *)
Definition variables (now : Time) (e : gh.GitHubEvent) (env : gmap string string)
    (isDefaultBranch isPullRequest : bool) : gmap string value :=
  list_to_map
    [ ("year", VInt (Year now));
      ("month", VMonth (Month now));
      ("day", VInt (Day now));
      ("hour", VInt (Hour now));
      ("weekday", VInt (Weekday now));
      ("github", VMap (list_to_map [("event_name", VString (gh.Name e));
                                    ("event", gh.Payload e)]));
      ("env", VEnv env);
      ("is_default_branch", VBool isDefaultBranch);
      ("is_pull_request", VBool isPullRequest) ].

(** [fmt.Sprintf("(%s) == true", cond)] *)
Definition formula (cond : string) : string := "(" ++ cond ++ ") == true".

(** The end of [CheckIf]: [if err != nil { return false, err }] and
    [return ok.(bool), nil]. *)
Definition result_of_Eval (r : value * option error) : outcome :=
  let '(ok, err) := r in
  match err with
  | Some x => Return false (Some x)
  | None =>
      match ok with
      | VBool b => Return b None
      | v => Panic v
      end
  end.

Definition CheckIf_body (w : World) (cond : string) : M outcome :=
  if String.eqb cond "" then exit (Return true None)
  else
    '(e, err) <- perform CallDecodeGitHubEvent (DecodeGitHubEvent w) ;;
    match err with Some x => exit (Return false (Some x)) | None =>
    repository <- get_Repository ;;
    if String.eqb repository "" then
      exit (Return false (Some (Errorf "env GITHUB_REPOSITORY is not set")))
    else
    '(repo, err) <- perform (CallParse repository) (gh_Parse w repository) ;;
    match err with Some x => exit (Return false (Some x)) | None =>
    cgh <- get_gh ;;
    g <- match cgh with
         | Some g => pure g
         | None =>
             '(g, err) <- perform CallNew (gh_New w) ;;
             match err with
             | Some x => exit (Return false (Some x))
             | None => _ <- set_gh g ;; pure g
             end
         end ;;
    '(defaultBranch, err) <- perform (CallGetDefaultBranch g (gh.Owner repo) (gh.Repo repo))
                                     (GetDefaultBranch w g (gh.Owner repo) (gh.Repo repo)) ;;
    match err with Some x => exit (Return false (Some x)) | None =>
    '(b, err) <- perform (CallDetectCurrentBranch g) (DetectCurrentBranch w g) ;;
    let isDefaultBranch :=
      match err with
      | None => if String.eqb b defaultBranch then true else false
      | Some _ => false
      end in
    '(_, err) <- perform (CallDetectCurrentPullRequestNumber g (gh.Owner repo) (gh.Repo repo))
                         (DetectCurrentPullRequestNumber w g (gh.Owner repo) (gh.Repo repo)) ;;
    let isPullRequest := match err with None => true | Some _ => false end in
    now <- perform CallNow (time_Now w) ;;
    environ <- perform CallEnviron (os_Environ w) ;;
    let vars := variables now e (envMap environ) isDefaultBranch isPullRequest in
    r <- perform (CallEval (formula cond) vars) (expr_Eval w (formula cond) vars) ;;
    pure (result_of_Eval r)
    end end end.

(** [c.CheckIf(cond)]: how the call ends, the receiver afterwards and the
    calls made, in order. *)
Definition CheckIf (w : World) (c : Config) (cond : string) : outcome * Config * list call :=
  match CheckIf_body w cond {| cfg := c; calls := [] |} with
  | (Exit o, st) | (Next o, st) => (o, cfg st, calls st)
  end.

(** ** Package [expr]: a reference instance of [expr.Eval]

    The fragment of the expression language made of integer literals,
    [true], [false], [nil], variables, parentheses, [!]/[not],
    [==], [!=], [<], [<=], [>], [>=], [&&]/[and], [||]/[or] and the
    conditional [c ? a : b] (also [a ?: b]), parsed as the library's
    [parser.parseExpression] does and run as its virtual machine does on
    these nodes.  Everything else is reported as [Unsupported]; the
    theorems below quantify over the evaluator and use this instance only
    at closed inputs of the fragment. *)

Module expr.

Inductive token : Type :=
| Number (n : Z)
| Identifier (name : string)
| Operator (op : string)
| Bracket (b : string)
| EOF.

Inductive node : Type :=
| NilNode
| BoolNode (b : bool)
| IntegerNode (n : Z)
| IdentifierNode (name : string)
| UnaryNode (op : string) (n : node)
| BinaryNode (op : string) (l r : node)
| ConditionalNode (c e1 e2 : node).

(** A result of the instance: a value, an error of the library (a syntax
    error, or a panic of the virtual machine that [Run] recovers), or
    [Unsupported] for an input outside the fragment. *)
Inductive res (A : Type) : Type :=
| Ok (a : A)
| Failed (msg : string)
| Unsupported.
Arguments Ok {A} a.
Arguments Failed {A} msg.
Arguments Unsupported {A}.

Definition and_then {A B} (r : res A) (k : A -> res B) : res B :=
  match r with
  | Ok a => k a
  | Failed msg => Failed msg
  | Unsupported => Unsupported
  end.

(** *** Lexer *)

Definition is_space (c : ascii) : bool :=
  let n := nat_of_ascii c in (n =? 32)%nat || ((9 <=? n)%nat && (n <=? 13)%nat).

Definition is_alpha (c : ascii) : bool :=
  let n := nat_of_ascii c in
  ((65 <=? n)%nat && (n <=? 90)%nat) || ((97 <=? n)%nat && (n <=? 122)%nat) || (n =? 95)%nat.

Definition in_string (c : ascii) (set : string) : bool :=
  strings.Contains set (String c "").

(** The token being read; [Skip] when the next byte is the second byte of
    the operator just emitted. *)
Inductive pending : Type :=
| Root
| Skip
| InNumber (n : Z)
| InWord (w : string).

Definition word_token (w : string) : token :=
  if existsb (String.eqb w) ["not"; "in"; "or"; "and"; "matches"; "contains";
                             "startsWith"; "endsWith"]
  then Operator w else Identifier w.

Definition flush (p : pending) (acc : list token) : list token :=
  match p with
  | Root | Skip => acc
  | InNumber n => (acc ++ [Number n])%list
  | InWord w => (acc ++ [word_token w])%list
  end.

Definition peek (t : string) : option ascii :=
  match t with
  | EmptyString => None
  | String d _ => Some d
  end.

(** The lexer's [root] state on the byte [c] followed by [t]: the state to
    continue in and the tokens so far. *)
Definition root (c : ascii) (t : string) (acc : list token) : res (pending * list token) :=
  if is_space c then Ok (Root, acc)
  else if strconv.is_digit c then Ok (InNumber (strconv.digit c), acc)
  else if is_alpha c then Ok (InWord (String c ""), acc)
  else if in_string c "()" then Ok (Root, (acc ++ [Bracket (String c "")])%list)
  else if Ascii.eqb c ":" then Ok (Root, (acc ++ [Operator ":"])%list)
  else if Ascii.eqb c "?" then
    match peek t with
    | Some d => if in_string d "?." then Unsupported else Ok (Root, (acc ++ [Operator "?"])%list)
    | None => Ok (Root, (acc ++ [Operator "?"])%list)
    end
  else if in_string c "&|!=<>" then
    match peek t with
    | Some d =>
        if in_string d "&|=*" then Ok (Skip, (acc ++ [Operator (String c (String d ""))])%list)
        else Ok (Root, (acc ++ [Operator (String c "")])%list)
    | None => Ok (Root, (acc ++ [Operator (String c "")])%list)
    end
  else Unsupported.

Fixpoint lex (s : string) (p : pending) (acc : list token) : res (list token) :=
  match s with
  | EmptyString => Ok (flush p acc ++ [EOF])%list
  | String c t =>
      let continue (r : res (pending * list token)) :=
        and_then r (fun '(p', acc') => lex t p' acc') in
      match p with
      | Skip => lex t Root acc
      | InNumber n =>
          if strconv.is_digit c then lex t (InNumber (10 * n + strconv.digit c)) acc
          else if is_alpha c || Ascii.eqb c "." then Unsupported
          else continue (root c t (flush p acc))
      | InWord w =>
          if is_alpha c || strconv.is_digit c then lex t (InWord (w ++ String c "")) acc
          else continue (root c t (flush p acc))
      | Root => continue (root c t acc)
      end
  end.

Definition Lex (s : string) : res (list token) := lex s Root [].

(** *** Parser *)

Inductive operator_kind : Type :=
| Binary (precedence : Z)
| BinaryOutside
| NotBinary.

(** The supported rows of [binaryOperators] (all associate to the left);
    the other rows are [BinaryOutside]. *)
Definition binaryOperators (op : string) : operator_kind :=
  if existsb (String.eqb op) ["or"; "||"] then Binary 10
  else if existsb (String.eqb op) ["and"; "&&"] then Binary 15
  else if existsb (String.eqb op) ["=="; "!="; "<"; ">"; ">="; "<="] then Binary 20
  else if existsb (String.eqb op) ["in"; "matches"; "contains"; "startsWith"; "endsWith"]
  then BinaryOutside
  else NotBinary.

Definition parsed : Type := res (node * list token).

Section Parser.

(** [parseExpression] one level of recursion below. *)
Variable parseExpression : Z -> list token -> parsed.

Definition parsePrimary (ts : list token) : parsed :=
  match ts with
  | Operator op :: rest =>
      if String.eqb op "!" || String.eqb op "not" then
        match rest with
        | Operator "in" :: _ => Unsupported
        | _ => and_then (parseExpression 50 rest) (fun '(e, r) => Ok (UnaryNode op e, r))
        end
      else Failed "unexpected token"
  | Bracket "(" :: rest =>
      and_then (parseExpression 0 rest) (fun '(e, r) =>
        match r with
        | Bracket ")" :: r' => Ok (e, r')
        | _ => Failed "an opened parenthesis is not properly closed"
        end)
  | Identifier name :: rest =>
      if String.eqb name "true" then Ok (BoolNode true, rest)
      else if String.eqb name "false" then Ok (BoolNode false, rest)
      else if String.eqb name "nil" then Ok (NilNode, rest)
      else match rest with
           | Bracket "(" :: _ => Unsupported
           | _ => Ok (IdentifierNode name, rest)
           end
  | Number n :: rest => if n <? 2 ^ 63 then Ok (IntegerNode n, rest) else Unsupported
  | _ => Failed "unexpected token"
  end.

(** The loop over binary operators of [parseExpression]. *)
Fixpoint binaryLoop (fuel : nat) (precedence : Z) (nodeLeft : node) (ts : list token)
  : parsed :=
  match ts with
  | Operator op :: rest =>
      match binaryOperators op with
      | Binary p =>
          if p >=? precedence then
            match fuel with
            | O => Unsupported
            | S fuel' =>
                and_then (parseExpression (p + 1) rest) (fun '(nodeRight, ts') =>
                  binaryLoop fuel' precedence (BinaryNode op nodeLeft nodeRight) ts')
            end
          else Ok (nodeLeft, ts)
      | BinaryOutside => Unsupported
      | NotBinary => Ok (nodeLeft, ts)
      end
  | _ => Ok (nodeLeft, ts)
  end.

(** [parseConditionalExpression] *)
Fixpoint parseConditionalExpression (fuel : nat) (n : node) (ts : list token) : parsed :=
  match ts with
  | Operator "?" :: rest =>
      match fuel with
      | O => Unsupported
      | S fuel' =>
          match rest with
          | Operator ":" :: rest' =>
              and_then (parseExpression 0 rest') (fun '(expr2, ts') =>
                parseConditionalExpression fuel' (ConditionalNode n n expr2) ts')
          | _ =>
              and_then (parseExpression 0 rest) (fun '(expr1, ts1) =>
                match ts1 with
                | Operator ":" :: ts2 =>
                    and_then (parseExpression 0 ts2) (fun '(expr2, ts') =>
                      parseConditionalExpression fuel' (ConditionalNode n expr1 expr2) ts')
                | _ => Failed "unexpected token"
                end)
          end
      end
  | _ => Ok (n, ts)
  end.

End Parser.

Fixpoint parseExpression (fuel : nat) (precedence : Z) (ts : list token) : parsed :=
  match fuel with
  | O => Unsupported
  | S fuel' =>
      let rec := parseExpression fuel' in
      and_then (parsePrimary rec ts) (fun '(nodeLeft, ts1) =>
      and_then (binaryLoop rec fuel' precedence nodeLeft ts1) (fun '(nodeLeft, ts2) =>
        if precedence =? 0 then parseConditionalExpression rec fuel' nodeLeft ts2
        else Ok (nodeLeft, ts2)))
  end.

(** [parser.Parse]: the whole input is one expression. *)
Definition Parse (input : string) : res node :=
  and_then (Lex input) (fun ts =>
  and_then (parseExpression (S (List.length ts)) 0 ts) (fun '(n, rest) =>
    match rest with
    | [EOF] => Ok n
    | _ => Failed "unexpected token"
    end)).

(** *** Evaluation *)

Definition scalar (v : value) : bool :=
  match v with
  | VNil | VBool _ | VInt _ | VString _ => true
  | _ => false
  end.

(** The virtual machine's [equal] on [nil], [bool], [int] and [string]
    values: values of different types are not equal. *)
Definition equal (a b : value) : res bool :=
  if scalar a && scalar b then
    Ok match a, b with
       | VInt x, VInt y => x =? y
       | VBool x, VBool y => Bool.eqb x y
       | VString x, VString y => String.eqb x y
       | VNil, VNil => true
       | _, _ => false
       end
  else Unsupported.

Definition compare_ints (op : string) (a b : value) : res value :=
  match a, b with
  | VInt x, VInt y =>
      Ok (VBool (if String.eqb op "<" then x <? y
                 else if String.eqb op "<=" then x <=? y
                 else if String.eqb op ">" then y <? x
                 else y <=? x))
  | _, _ => Unsupported
  end.

Definition not_bool : string := "interface conversion: interface {} is not bool".

Fixpoint run (env : gmap string value) (n : node) : res value :=
  match n with
  | NilNode => Ok VNil
  | BoolNode b => Ok (VBool b)
  | IntegerNode i => Ok (VInt i)
  | IdentifierNode name => Ok (default VNil (env !! name))
  | UnaryNode _ e =>
      and_then (run env e) (fun v =>
        match v with
        | VBool b => Ok (VBool (negb b))
        | _ => Failed not_bool
        end)
  | BinaryNode op l r =>
      if String.eqb op "or" || String.eqb op "||" then
        and_then (run env l) (fun a =>
          match a with
          | VBool true => Ok (VBool true)
          | VBool false => run env r
          | _ => Failed not_bool
          end)
      else if String.eqb op "and" || String.eqb op "&&" then
        and_then (run env l) (fun a =>
          match a with
          | VBool false => Ok (VBool false)
          | VBool true => run env r
          | _ => Failed not_bool
          end)
      else
        and_then (run env l) (fun a =>
        and_then (run env r) (fun b =>
          if String.eqb op "==" then and_then (equal a b) (fun e => Ok (VBool e))
          else if String.eqb op "!=" then and_then (equal a b) (fun e => Ok (VBool (negb e)))
          else compare_ints op a b))
  | ConditionalNode c e1 e2 =>
      and_then (run env c) (fun v =>
        match v with
        | VBool true => run env e1
        | VBool false => run env e2
        | _ => Failed not_bool
        end)
  end.

(** [expr.Eval(input, env)] *)
Definition Eval (input : string) (env : gmap string value) : value * option error :=
  match and_then (Parse input) (run env) with
  | Ok v => (v, None)
  | Failed msg => (VNil, Some (ForeignError "expr" msg))
  | Unsupported => (VNil, Some (ForeignError "expr" "outside the modelled fragment"))
  end.

End expr.

(** ** A reference world

    An instance of the collaborators for closed examples: the event is a
    push, the repository is split at its slash, the default branch is
    [main]; branch detection, pull request detection and the environment
    are given. *)

Definition gh_Parse_reference (s : string) : gh.Repository * option error :=
  match strings.SplitN2 s "/" with
  | Some (o, r) => ({| gh.Owner := o; gh.Repo := r |}, None)
  | None => ({| gh.Owner := ""; gh.Repo := "" |}, Some (ForeignError "gh" "invalid repository"))
  end.

Definition reference_world (branch : string * option error) (pr : Z * option error)
    (environ : list string) : World :=
  {| DecodeGitHubEvent := ({| gh.Name := "push"; gh.Payload := VNil |}, None);
     gh_Parse := gh_Parse_reference;
     gh_New := (gh.Client 0, None);
     GetDefaultBranch := fun _ _ _ => ("main", None);
     DetectCurrentBranch := fun _ => branch;
     DetectCurrentPullRequestNumber := fun _ _ _ => pr;
     time_Now := {| Year := 2022; Month := 3; Day := 14; Hour := 9; Weekday := 1 |};
     os_Environ := environ;
     expr_Eval := expr.Eval |}.

Definition reference_config : Config := {| Repository := "k1LoW/octocov"; gh := None |}.

(** The reference world outside a branch and outside a pull request: both
    detections fail. *)
Definition detached_world : World :=
  reference_world ("", Some (ForeignError "gh" "detached HEAD"))
    (0, Some (ForeignError "gh" "not a pull request")) ["CI=true"].

(** ** Definitions used to state and prove the facts below *)

Module Float64Order.

(** A non-NaN value as a triple compared lexicographically: its class
    (infinities, negative, zero, positive), then exponent and mantissa,
    both negated for negative values. *)
Definition key (x : spec_float) : option (Z * Z * Z) :=
  match x with
  | S754_nan => None
  | S754_infinity true => Some (-2, 0, 0)
  | S754_infinity false => Some (2, 0, 0)
  | S754_zero _ => Some (0, 0, 0)
  | S754_finite true m e => Some (-1, - e, - Zpos m)
  | S754_finite false m e => Some (1, e, Zpos m)
  end.

Definition lex (a b : Z * Z * Z) : comparison :=
  let '(a1, a2, a3) := a in
  let '(b1, b2, b3) := b in
  match a1 ?= b1 with
  | Eq => match a2 ?= b2 with Eq => a3 ?= b3 | c => c end
  | c => c
  end.

Definition lex_lt (a b : Z * Z * Z) : Prop :=
  let '(a1, a2, a3) := a in
  let '(b1, b2, b3) := b in
  a1 < b1 \/ (a1 = b1 /\ (a2 < b2 \/ (a2 = b2 /\ a3 < b3))).

Definition lex_le (a b : Z * Z * Z) : Prop :=
  let '(a1, a2, a3) := a in
  let '(b1, b2, b3) := b in
  a1 < b1 \/ (a1 = b1 /\ (a2 < b2 \/ (a2 = b2 /\ a3 <= b3))).

(** The key of a [float64]; [None] for NaN. *)
Definition fkey (x : float) : option (Z * Z * Z) := key (Prim2SF x).

End Float64Order.

(** The last byte of a string. *)
Fixpoint last_byte (s : string) : option ascii :=
  match s with
  | EmptyString => None
  | String c EmptyString => Some c
  | String _ t => last_byte t
  end.

(** Calls of the evaluator. *)
Definition is_CallEval (c : call) : bool :=
  match c with
  | CallEval _ _ => true
  | _ => false
  end.

(** The flags [CheckIf] computes from the two detections. *)
Definition isDefaultBranch_of (detected : string * option error) (defaultBranch : string) : bool :=
  match detected with
  | (b, None) => String.eqb b defaultBranch
  | (_, Some _) => false
  end.

Definition isPullRequest_of (detected : Z * option error) : bool :=
  match detected with
  | (_, None) => true
  | (_, Some _) => false
  end.


(** * The rest of the package *)

(** ** [config.go]: [Acceptable] *)

(** The three sections of [Config] that [Acceptable] reads.  Each is a
    pointer in [Config], [None] when nil. *)
Module ConfigCoverageBadge.
Record t := { Path : string }.
End ConfigCoverageBadge.

Module ConfigCoverage.
Record t := { Path : string; Badge : ConfigCoverageBadge.t; Acceptable : string }.
End ConfigCoverage.

Module ConfigCodeToTestRatioBadge.
Record t := { Path : string }.
End ConfigCodeToTestRatioBadge.

Module ConfigCodeToTestRatio.
Record t := {
  Code : list string;
  Test : list string;
  Badge : ConfigCodeToTestRatioBadge.t;
  Acceptable : string
}.
End ConfigCodeToTestRatio.

Module ConfigTestExecutionTimeBadge.
Record t := { Path : string }.
End ConfigTestExecutionTimeBadge.

Module ConfigTestExecutionTime.
Record t := {
  Badge : ConfigTestExecutionTimeBadge.t;
  Acceptable : string;
  Steps : list string
}.
End ConfigTestExecutionTime.

Record ConfigSections := {
  Coverage : option ConfigCoverage.t;
  CodeToTestRatio : option ConfigCodeToTestRatio.t;
  TestExecutionTime : option ConfigTestExecutionTime.t
}.

(** What a call gives: a value, or the panic of a nil pointer
    dereference. *)
Inductive returned (A : Type) : Type :=
| Returned (a : A)
| NilDereference.
Arguments Returned {A} a.
Arguments NilDereference {A}.

Section AcceptableAll.

Variable ParseFloat : string -> float * option error.
Variable duration_Parse : string -> time.Duration * option error.
Variable Duration_of_float64 : float -> time.Duration.

(** [report.Report] and its three readings; the three [...ConfigReady]
    methods of [Config]. *)
Variable Report : Type.
Variable CoveragePercent CodeToTestRatioRatio TestExecutionTimeNano : Report -> float.
Variable CoverageConfigReady CodeToTestRatioConfigReady TestExecutionTimeConfigReady :
  ConfigSections -> option error.

(** One of the three blocks of [Acceptable]: nothing to do when the section
    is not ready, else the check of the section's threshold. *)
Definition acceptable_block {S : Type} (ready : option error) (section : option S)
    (check : S -> option error) : returned (option error) :=
  match ready with
  | Some _ => Returned None
  | None =>
      match section with
      | None => NilDereference
      | Some s => Returned (check s)
      end
  end.

(** [c.Acceptable(r, rPrev)]: the blocks in order, returning the first
    error. *)
Definition Acceptable (c : ConfigSections) (r rPrev : Report) : returned (option error) :=
  match acceptable_block (CoverageConfigReady c) (Coverage c)
          (fun s => coverageAcceptable ParseFloat (CoveragePercent r)
                      (ConfigCoverage.Acceptable s)) with
  | Returned None =>
      match acceptable_block (CodeToTestRatioConfigReady c) (CodeToTestRatio c)
              (fun s => codeToTestRatioAcceptable ParseFloat (CodeToTestRatioRatio r)
                          (ConfigCodeToTestRatio.Acceptable s)) with
      | Returned None =>
          acceptable_block (TestExecutionTimeConfigReady c) (TestExecutionTime c)
            (fun s => testExecutionTimeAcceptable duration_Parse Duration_of_float64
                        (TestExecutionTimeNano r) (ConfigTestExecutionTime.Acceptable s))
      | stop => stop
      end
  | stop => stop
  end.

End AcceptableAll.

(** ** [config.go]: [New], [Getwd], [Setwd], [Load], [Root], [Loaded] *)

(** The calls [Load] makes to the file system. *)
Inductive fs_call : Type :=
| CallStat (name : string)
| CallReadFile (name : string).

Definition DefaultConfigFilePaths : list string := [".octocov.yml"; "octocov.yml"].

Section Load.

(** The fields of [Config] that YAML decoding can write (the exported
    ones), as one value. *)
Variable Exported : Type.

(** [filepath.Join] of two elements, [filepath.Clean], [filepath.Dir];
    [os.Stat] (whether the file is a directory, and the error);
    [os.ReadFile]; [expand.ExpandenvYAMLBytes]; [yaml.Unmarshal] into the
    exported fields. *)
Variable Join : string -> string -> string.
Variable Clean Dir : string -> string.
Variable Stat : string -> bool * option error.
Variable ReadFile : string -> string * option error.
Variable ExpandenvYAMLBytes : string -> string.
Variable Unmarshal : string -> Exported -> Exported * option error.

(** [Config] for these methods: the exported fields, [wd] and [path]. *)
Record FileConfig := { exported : Exported; wd : string; path : string }.

(** [New], given the zero value of the exported fields and what
    [os.Getwd()] answers (its error is dropped). *)
Definition New (zero : Exported) (getwd : string * option error) : FileConfig :=
  {| exported := zero; wd := fst getwd; path := "" |}.

Definition Getwd (c : FileConfig) : string := wd c.

Definition Setwd (c : FileConfig) (p : string) : FileConfig :=
  {| exported := exported c; wd := p; path := path c |}.

Definition Root (c : FileConfig) : string :=
  if negb (String.eqb (path c) "") then Dir (path c) else wd c.

Definition Loaded (c : FileConfig) : bool := negb (String.eqb (path c) "").

(** The loop of [Load] over the default file names: [found] is the local
    [path]; the result is its final value, or the error returned from
    inside the loop. *)
Fixpoint discover (dir : string) (names : list string) (found : string)
    (calls : list fs_call) : (string + error) * list fs_call :=
  match names with
  | [] => (inl found, calls)
  | p :: rest =>
      let '(isDir, err) := Stat (Join dir p) in
      let calls := (calls ++ [CallStat (Join dir p)])%list in
      match err with
      | None =>
          if negb isDir then
            if negb (String.eqb found "") then
              (inr (Errorf ("duplicate config file [" ++ found ++ ", " ++ p ++ "]")), calls)
            else discover dir rest p calls
          else discover dir rest found calls
      | Some _ => discover dir rest found calls
      end
  end.

(** [c.Load(path)]: the error returned, the receiver afterwards and the
    calls made. *)
Definition Load (c : FileConfig) (name : string)
  : option error * FileConfig * list fs_call :=
  let '(found, calls) :=
    if String.eqb name "" then discover (wd c) DefaultConfigFilePaths name []
    else (inl name, []) in
  match found with
  | inr e => (Some e, c, calls)
  | inl p =>
      if String.eqb p "" then (None, c, calls)
      else
        let c1 := {| exported := exported c; wd := wd c; path := Join (wd c) p |} in
        let '(buf, err) := ReadFile (Clean (path c1)) in
        let calls := (calls ++ [CallReadFile (Clean (path c1))])%list in
        match err with
        | Some e => (Some e, c1, calls)
        | None =>
            let '(ex, err) := Unmarshal (ExpandenvYAMLBytes buf) (exported c1) in
            (err, {| exported := ex; wd := wd c1; path := path c1 |}, calls)
        end
  end.

End Load.

Arguments exported {Exported} _.
Arguments wd {Exported} _.
Arguments path {Exported} _.

(** ** The central configuration: [CentralConfigReady],
       [CentralPushConfigReady], [BuildCentralConfig]

    These three methods belong to a revision of the package in which
    [ConfigCentral] holds [Enable] as a [bool] and [Reports] and [Badges] as
    strings, and [CheckIf] is a function of the condition alone; the fields
    are typed here by their use in the methods, and [Push] is a pointer as
    [config.go] declares it. *)

Module central.

Module ConfigPush.
Record t := { Enable : bool; If : string }.
End ConfigPush.

Module ConfigCentral.
Record t := {
  Enable : bool;
  Root : string;
  Reports : string;
  Badges : string;
  Push : option ConfigPush.t
}.
End ConfigCentral.

Record Config := {
  Repository : string;
  Central : option ConfigCentral.t;
  Push : option ConfigPush.t;
  GitRoot : string;
  wd : string;
  path : string
}.

Definition newline : string := String (ascii_of_nat 10) "".

Section Methods.

(** [filepath.Join] of two elements, [filepath.Clean], [filepath.Dir], the
    constants [defaultReportsDir] and [defaultBadgesDir], and [CheckIf]. *)
Variable Join : string -> string -> string.
Variable Clean Dir : string -> string.
Variable defaultReportsDir defaultBadgesDir : string.
Variable CheckIf : string -> bool * option error.

(** [c.Root()], as in [config.go]. *)
Definition Root (c : Config) : string :=
  if negb (String.eqb (path c) "") then Dir (path c) else wd c.

Definition CentralConfigReady (c : Config) : bool :=
  match Central c with
  | Some cc => ConfigCentral.Enable cc
  | None => false
  end.

(** [c.CentralPushConfigReady()]: what it returns, the lines written to
    the standard error and the conditions given to [CheckIf]. *)
Definition CentralPushConfigReady (c : Config)
  : returned bool * list string * list string :=
  if negb (CentralConfigReady c) then (Returned false, [], [])
  else
    match Central c with
    | None => (NilDereference, [], [])
    | Some cc =>
        match ConfigCentral.Push cc with
        | None => (NilDereference, [], [])
        | Some p =>
            if negb (ConfigPush.Enable p) || String.eqb (GitRoot c) "" then
              (Returned false, [], [])
            else
              let '(ok, err) := CheckIf (ConfigPush.If p) in
              match err with
              | Some e =>
                  (Returned false,
                   ["Skip pushing badges: " ++ Error e ++ newline],
                   [ConfigPush.If p])
              | None =>
                  if negb ok then
                    match Push c with
                    | None => (NilDereference, [], [ConfigPush.If p])
                    | Some q =>
                        (Returned false,
                         ["Skip pushing badges: the condition in the `if` section is not met ("
                          ++ ConfigPush.If q ++ ")" ++ newline],
                         [ConfigPush.If p])
                    end
                  else (Returned true, [], [ConfigPush.If p])
              end
        end
    end.

Definition set_Root (cc : ConfigCentral.t) (v : string) : ConfigCentral.t :=
  {| ConfigCentral.Enable := ConfigCentral.Enable cc; ConfigCentral.Root := v;
     ConfigCentral.Reports := ConfigCentral.Reports cc;
     ConfigCentral.Badges := ConfigCentral.Badges cc;
     ConfigCentral.Push := ConfigCentral.Push cc |}.

Definition set_Reports (cc : ConfigCentral.t) (v : string) : ConfigCentral.t :=
  {| ConfigCentral.Enable := ConfigCentral.Enable cc;
     ConfigCentral.Root := ConfigCentral.Root cc; ConfigCentral.Reports := v;
     ConfigCentral.Badges := ConfigCentral.Badges cc;
     ConfigCentral.Push := ConfigCentral.Push cc |}.

Definition set_Badges (cc : ConfigCentral.t) (v : string) : ConfigCentral.t :=
  {| ConfigCentral.Enable := ConfigCentral.Enable cc;
     ConfigCentral.Root := ConfigCentral.Root cc;
     ConfigCentral.Reports := ConfigCentral.Reports cc; ConfigCentral.Badges := v;
     ConfigCentral.Push := ConfigCentral.Push cc |}.

Definition set_Central (c : Config) (cc : ConfigCentral.t) : Config :=
  {| Repository := Repository c; Central := Some cc; Push := Push c;
     GitRoot := GitRoot c; wd := wd c; path := path c |}.

(** The five assignments of [BuildCentralConfig] to [c.Central], [root]
    being [c.Root()]. *)
Definition build (root : string) (cc : ConfigCentral.t) : ConfigCentral.t :=
  let cc := if String.eqb (ConfigCentral.Root cc) "" then set_Root cc "." else cc in
  let cc :=
    if negb (strings.HasPrefix (ConfigCentral.Root cc) "/")
    then set_Root cc (Clean (Join root (ConfigCentral.Root cc))) else cc in
  let cc :=
    if String.eqb (ConfigCentral.Reports cc) "" then set_Reports cc defaultReportsDir
    else cc in
  let cc :=
    if String.eqb (ConfigCentral.Badges cc) "" then set_Badges cc defaultBadgesDir
    else cc in
  if negb (strings.HasPrefix (ConfigCentral.Badges cc) "/")
  then set_Badges cc (Clean (Join root (ConfigCentral.Badges cc))) else cc.

(** [c.BuildCentralConfig()]: the error returned and the receiver
    afterwards. *)
Definition BuildCentralConfig (c : Config) : option error * Config :=
  if String.eqb (Repository c) "" then
    (Some (Errorf "repository: not set (or env GITHUB_REPOSITORY is not set)"), c)
  else
    match Central c with
    | None => (Some (Errorf "central: not set"), c)
    | Some cc => (None, set_Central c (build (Root c) cc))
    end.

End Methods.

End central.

(** ** Definitions used to state the further facts *)

(** The rank of a badge colour, from [red] (0) to [green] (4). *)
Definition tier (colour : string) : nat :=
  if String.eqb colour green then 4
  else if String.eqb colour yellowgreen then 3
  else if String.eqb colour yellow then 2
  else if String.eqb colour orange then 1
  else 0.

(** The calls of a [CheckIf] that reaches the evaluation, in order: [g] is
    the client in use, [repo] the parsed repository and [vars] the
    variables of the expression. *)
Definition assembly_calls (c : Config) (cond : string) (g : gh.Gh) (repo : gh.Repository)
    (vars : gmap string value) : list call :=
  ([CallDecodeGitHubEvent; CallParse (Repository c)]
   ++ match gh c with Some _ => [] | None => [CallNew] end
   ++ [CallGetDefaultBranch g (gh.Owner repo) (gh.Repo repo);
       CallDetectCurrentBranch g;
       CallDetectCurrentPullRequestNumber g (gh.Owner repo) (gh.Repo repo);
       CallNow; CallEnviron; CallEval (formula cond) vars])%list.

(** The reference world with a GitHub API that cannot be reached: the
    client is made, and the lookup of the default branch fails. *)
Definition unreachable_world : World :=
  {| DecodeGitHubEvent := DecodeGitHubEvent detached_world;
     gh_Parse := gh_Parse_reference;
     gh_New := (gh.Client 0, None);
     GetDefaultBranch := fun _ _ _ => ("", Some (ForeignError "gh" "connection refused"));
     DetectCurrentBranch := DetectCurrentBranch detached_world;
     DetectCurrentPullRequestNumber := DetectCurrentPullRequestNumber detached_world;
     time_Now := time_Now detached_world;
     os_Environ := os_Environ detached_world;
     expr_Eval := expr.Eval |}.

(** A block of [Acceptable] lets it go on: the section is not ready, or it
    is there and its check passes. *)
Definition metric_passes {S : Type} (ready : option error) (section : option S)
    (check : S -> option error) : Prop :=
  ready <> None \/ exists s, section = Some s /\ check s = None.

(** A block of [Acceptable] stops it with the error [e]: the section is
    ready and there, and its check fails with [e]. *)
Definition metric_fails {S : Type} (ready : option error) (section : option S)
    (check : S -> option error) (e : error) : Prop :=
  ready = None /\ exists s, section = Some s /\ check s = Some e.

(** Whether [os.Stat] found a file that is not a directory. *)
Definition regular (stat : bool * option error) : bool :=
  match stat with
  | (isDir, None) => negb isDir
  | (_, Some _) => false
  end.

(** ** A reference file system

    Paths are joined with [/]; [Join] and [Clean] are those of
    [path/filepath] on clean, non-empty elements; the decoded configuration
    is the text of the file. *)

Module reference_fs.

Definition Join (a b : string) : string := a ++ "/" ++ b.
Definition Clean (p : string) : string := p.

(** The path up to its last [/], if it has one. *)
Fixpoint parent (p : string) : option string :=
  match p with
  | EmptyString => None
  | String c t =>
      match parent t with
      | Some d => Some (String c d)
      | None => if Ascii.eqb c "/" then Some EmptyString else None
      end
  end.

Definition Dir (p : string) : string :=
  match parent p with
  | Some EmptyString => "/"
  | Some d => d
  | None => "."
  end.

Definition files : list (string * string) :=
  [("/repo/.octocov.yml", "coverage: {acceptable: 60%}")].

Fixpoint find (name : string) (l : list (string * string)) : option string :=
  match l with
  | [] => None
  | (n, content) :: rest => if String.eqb n name then Some content else find name rest
  end.

Definition Stat (name : string) : bool * option error :=
  match find name files with
  | Some _ => (false, None)
  | None => (false, Some (ForeignError "os" "no such file or directory"))
  end.

Definition ReadFile (name : string) : string * option error :=
  match find name files with
  | Some content => (content, None)
  | None => ("", Some (ForeignError "os" "no such file or directory"))
  end.

Definition ExpandenvYAMLBytes (buf : string) : string := buf.

Definition Unmarshal (buf : string) (into : string) : string * option error := (buf, None).

End reference_fs.

(** A configuration of the central mode, in [/repo]: pushing is asked for
    on the default branch under [central], and never at the top level. *)
Definition reference_central : central.Config :=
  {| central.Repository := "k1LoW/octocov";
     central.Central :=
       Some {| central.ConfigCentral.Enable := true;
               central.ConfigCentral.Root := "";
               central.ConfigCentral.Reports := "";
               central.ConfigCentral.Badges := "";
               central.ConfigCentral.Push :=
                 Some {| central.ConfigPush.Enable := true;
                         central.ConfigPush.If := "is_default_branch" |} |};
     central.Push := Some {| central.ConfigPush.Enable := true;
                             central.ConfigPush.If := "false" |};
     central.GitRoot := "/repo";
     central.wd := "/repo";
     central.path := "" |}.
(** * Lemmas *)

(** ** The order of [float64] *)

Module Float64Facts.

Import Float64Order.

Lemma SFcompare_key (x y : spec_float) :
  SFcompare x y =
  match key x, key y with
  | Some a, Some b => Some (lex a b)
  | _, _ => None
  end.
Proof.
  destruct x as [[]|[]| |[] m1 e1], y as [[]|[]| |[] m2 e2]; try reflexivity.
  cbn. rewrite Z.compare_opp, (Z.compare_antisym e1 e2).
  destruct (e1 ?= e2); reflexivity.
Qed.

Lemma lex_Lt a b : lex a b = Lt <-> lex_lt a b.
Proof.
  destruct a as [[a1 a2] a3], b as [[b1 b2] b3]; cbn.
  destruct (Z.compare_spec a1 b1), (Z.compare_spec a2 b2), (Z.compare_spec a3 b3);
    split; intros; try discriminate; try reflexivity; try lia.
Qed.

Lemma lex_Gt a b : lex a b = Gt <-> lex_lt b a.
Proof.
  destruct a as [[a1 a2] a3], b as [[b1 b2] b3]; cbn.
  destruct (Z.compare_spec a1 b1), (Z.compare_spec a2 b2), (Z.compare_spec a3 b3);
    split; intros; try discriminate; try reflexivity; try lia.
Qed.

Lemma lex_le_not_lt a b : lex_le a b <-> ~ lex_lt b a.
Proof. destruct a as [[a1 a2] a3], b as [[b1 b2] b3]; cbn; lia. Qed.

Lemma ltb_key (x y : float) :
  (x <? y)%float = true <-> exists a b, fkey x = Some a /\ fkey y = Some b /\ lex_lt a b.
Proof.
  rewrite ltb_spec. unfold SFltb, fkey. rewrite SFcompare_key.
  destruct (key (Prim2SF x)) as [a|], (key (Prim2SF y)) as [b|];
    try (split; [discriminate | intros (? & ? & ? & ? & _); discriminate]).
  destruct (lex a b) eqn:E; split; try discriminate.
  - intros (a' & b' & [= <-] & [= <-] & L). apply lex_Lt in L. congruence.
  - intros _. exists a, b. now rewrite <- lex_Lt.
  - reflexivity.
  - intros (a' & b' & [= <-] & [= <-] & L). apply lex_Lt in L. congruence.
Qed.

Lemma leb_key (x y : float) :
  (x <=? y)%float = true <-> exists a b, fkey x = Some a /\ fkey y = Some b /\ lex_le a b.
Proof.
  rewrite leb_spec. unfold SFleb, fkey. rewrite SFcompare_key.
  destruct (key (Prim2SF x)) as [a|], (key (Prim2SF y)) as [b|];
    try (split; [discriminate | intros (? & ? & ? & ? & _); discriminate]).
  destruct (lex a b) eqn:E; split; try discriminate; try reflexivity.
  - intros _. exists a, b. rewrite lex_le_not_lt, <- lex_Gt. intuition congruence.
  - intros _. exists a, b. rewrite lex_le_not_lt, <- lex_Gt. intuition congruence.
  - intros (a' & b' & [= <-] & [= <-] & L).
    rewrite lex_le_not_lt, <- lex_Gt in L. congruence.
Qed.

Lemma fkey_nan (x : float) : fkey x = None <-> Float64.is_nan x = true.
Proof.
  unfold fkey, Float64.is_nan, Prim2SF.
  destruct (PrimFloat.is_nan x); [easy|].
  split; [|discriminate].
  destruct (is_zero x); [discriminate|].
  destruct (is_infinity x); [destruct (get_sign x); discriminate|].
  destruct (Z.frexp x) as [r ex].
  destruct (shr_fexp _ _ _ _ _) as [sh e'].
  destruct (shr_m sh); try discriminate.
  destruct (get_sign x); discriminate.
Qed.

Lemma fkey_some (x : float) : Float64.is_nan x = false -> exists a, fkey x = Some a.
Proof.
  intros H. destruct (fkey x) as [a|] eqn:E; [eauto|].
  apply fkey_nan in E. congruence.
Qed.

(** NaN compares false with everything. *)
Lemma ltb_nan (x y : float) :
  Float64.is_nan x = true \/ Float64.is_nan y = true -> (x <? y)%float = false.
Proof.
  intros H. apply not_true_is_false. rewrite ltb_key.
  intros (a & b & Ha & Hb & _).
  destruct H as [H | H]; apply fkey_nan in H; congruence.
Qed.

(** On values that are not NaN, [not (x < y)] is [y <= x]. *)
Lemma ltb_false_leb (x y : float) :
  Float64.is_nan x = false -> Float64.is_nan y = false ->
  (x <? y)%float = false <-> (y <=? x)%float = true.
Proof.
  intros Hx Hy.
  destruct (fkey_some x Hx) as [a Ha], (fkey_some y Hy) as [b Hb].
  rewrite <- not_true_iff_false, ltb_key, leb_key. split.
  - intros N. exists b, a. repeat split; try assumption.
    apply lex_le_not_lt. intros L. apply N. eauto 6.
  - intros (b' & a' & Hb' & Ha' & L) (a'' & b'' & Ha'' & Hb'' & L').
    rewrite lex_le_not_lt in L. apply L. congruence.
Qed.

Lemma leb_not_nan (x y : float) :
  (x <=? y)%float = true -> Float64.is_nan x = false /\ Float64.is_nan y = false.
Proof.
  rewrite leb_key. intros (a & b & Ha & Hb & _).
  split; apply not_true_is_false; rewrite <- fkey_nan; congruence.
Qed.

Lemma leb_trans (x y z : float) :
  (x <=? y)%float = true -> (y <=? z)%float = true -> (x <=? z)%float = true.
Proof.
  rewrite !leb_key.
  intros (a & b & Ha & Hb & L1) (b' & c & Hb' & Hc & L2).
  assert (b' = b) by congruence; subst b'.
  exists a, c. repeat split; try assumption.
  destruct a as [[a1 a2] a3], b as [[b1 b2] b3], c as [[c1 c2] c3]; cbn in *; lia.
Qed.

End Float64Facts.

(** ** [float64(n)] is never NaN *)

Module ConversionFacts.

Import Float64Order.

Lemma shr_1_nonneg (mrs : shr_record) : 0 <= shr_m mrs -> 0 <= shr_m (shr_1 mrs).
Proof. destruct mrs as [[|[p|p|]|p] r s]; cbn; lia. Qed.

Lemma iter_shr_1_nonneg (p : positive) (mrs : shr_record) :
  0 <= shr_m mrs -> 0 <= shr_m (SpecFloat.iter_pos shr_1 p mrs).
Proof.
  revert mrs. induction p as [p IH|p IH|]; intros mrs H; cbn.
  - apply IH, IH, shr_1_nonneg, H.
  - apply IH, IH, H.
  - apply shr_1_nonneg, H.
Qed.

Lemma shr_fexp_nonneg (m e : Z) (l : location) :
  0 <= m -> 0 <= shr_m (fst (shr_fexp prec emax m e l)).
Proof.
  intros H. unfold shr_fexp, shr.
  assert (H0 : 0 <= shr_m (shr_record_of_loc m l)) by (destruct l as [|[]]; exact H).
  destruct (fexp prec emax (Zdigits2 m + e) - e); cbn [fst]; try exact H0.
  apply iter_shr_1_nonneg, H0.
Qed.

Lemma round_nearest_even_nonneg (m : Z) (l : location) :
  0 <= m -> 0 <= round_nearest_even m l.
Proof. intros H. destruct l as [|[]]; cbn; try destruct (Z.even m); lia. Qed.

Lemma binary_round_aux_not_nan (sx : bool) (mx ex : Z) (lx : location) :
  0 <= mx -> binary_round_aux prec emax sx mx ex lx <> S754_nan.
Proof.
  intros H. unfold binary_round_aux.
  pose proof (shr_fexp_nonneg mx ex lx H) as H1.
  destruct (shr_fexp prec emax mx ex lx) as [mrs' e']. cbn [fst] in H1.
  pose proof (shr_fexp_nonneg _ e' loc_Exact
                (round_nearest_even_nonneg _ (loc_of_shr_record mrs') H1)) as H2.
  destruct (shr_fexp prec emax _ e' loc_Exact) as [mrs'' e'']. cbn [fst] in H2.
  destruct (shr_m mrs'') as [|p|p]; [discriminate | | lia].
  destruct (e'' <=? emax - prec); discriminate.
Qed.

Lemma binary_round_not_nan (sx : bool) (mx : positive) (ex : Z) :
  binary_round prec emax sx mx ex <> S754_nan.
Proof.
  unfold binary_round. destruct (shl_align _ _ _) as [mz ez].
  apply binary_round_aux_not_nan. lia.
Qed.

Lemma binary_normalize_not_nan (m e : Z) (szero : bool) :
  binary_normalize prec emax m e szero <> S754_nan.
Proof.
  destruct m; cbn [binary_normalize]; [discriminate | |]; apply binary_round_not_nan.
Qed.

Lemma SF2Prim_not_nan (x : spec_float) :
  x <> S754_nan -> Float64.is_nan (SF2Prim x) = false.
Proof.
  intros N. apply not_true_is_false. rewrite <- Float64Facts.fkey_nan. unfold fkey.
  destruct x as [[]|[]| |s m e]; try discriminate; [contradiction|].
  assert (F : Prim2SF (Z.ldexp (of_uint63 (Uint63.of_Z (Zpos m))) e) <> S754_nan).
  { rewrite Z_ldexp_spec, of_uint63_spec.
    pose proof (binary_normalize_not_nan (Uint63.to_Z (Uint63.of_Z (Zpos m))) 0 false) as B.
    destruct (binary_normalize _ _ _ _ _) as [| | |sx mx ex]; cbn [SFldexp];
      try assumption.
    apply binary_round_not_nan. }
  cbn [SF2Prim]. destruct s.
  - rewrite opp_spec.
    destruct (Prim2SF _) as [[]|[]| |[] mx ex]; cbn; try discriminate; contradiction.
  - destruct (Prim2SF _) as [[]|[]| |[] mx ex]; cbn; try discriminate; contradiction.
Qed.

Lemma of_int_not_nan (n : Z) : Float64.is_nan (Float64.of_int n) = false.
Proof. apply SF2Prim_not_nan, binary_normalize_not_nan. Qed.

End ConversionFacts.

(** ** Slices, prefixes and suffixes *)

Module StringsFacts.

Import strings.

Lemma app_nil (t : string) : "" ++ t = t.
Proof. reflexivity. Qed.

Lemma app_nil_r (s : string) : s ++ "" = s.
Proof. induction s as [|c s IH]; [reflexivity|]. change (String c (s ++ "") = String c s). now rewrite IH. Qed.

Lemma app_cons (c : ascii) (s t : string) : String c s ++ t = String c (s ++ t).
Proof. reflexivity. Qed.

Lemma substring_0_app (s t : string) : substring 0 (String.length s) (s ++ t) = s.
Proof.
  induction s as [|c s IH].
  - rewrite app_nil. now destruct t.
  - rewrite app_cons. simpl. now rewrite IH.
Qed.

Lemma substring_all (t : string) : substring 0 (String.length t) t = t.
Proof. induction t as [|d t IHt]; simpl; [reflexivity | now rewrite IHt]. Qed.

Lemma substring_skip_app (s t : string) :
  substring (String.length s) (String.length t) (s ++ t) = t.
Proof.
  induction s as [|c s IH].
  - rewrite app_nil. apply substring_all.
  - rewrite app_cons. exact IH.
Qed.

Lemma length_app (s t : string) :
  String.length (s ++ t) = (String.length s + String.length t)%nat.
Proof.
  induction s as [|c s IH]; [reflexivity|].
  rewrite app_cons. simpl. now rewrite IH.
Qed.

Lemma HasPrefix_app (x q : string) : HasPrefix (x ++ q) x = true.
Proof.
  unfold HasPrefix, slice. rewrite length_app, Nat.sub_0_r, substring_0_app.
  rewrite String.eqb_refl, andb_true_r. apply Nat.leb_le. lia.
Qed.

Lemma HasSuffix_app (s x : string) : HasSuffix (s ++ x) x = true.
Proof.
  unfold HasSuffix, slice. rewrite length_app.
  replace (String.length s + String.length x - String.length x)%nat
    with (String.length s) by lia.
  replace (String.length s + String.length x - String.length s)%nat
    with (String.length x) by lia.
  rewrite substring_skip_app, String.eqb_refl, andb_true_r. apply Nat.leb_le. lia.
Qed.

Lemma TrimPrefix_app (p s : string) : TrimPrefix (p ++ s) p = s.
Proof.
  unfold TrimPrefix. rewrite HasPrefix_app. unfold slice. rewrite length_app.
  replace (String.length p + String.length s - String.length p)%nat
    with (String.length s) by lia.
  apply substring_skip_app.
Qed.

Lemma TrimSuffix_app (s x : string) : TrimSuffix (s ++ x) x = s.
Proof.
  unfold TrimSuffix. rewrite HasSuffix_app. unfold slice. rewrite length_app.
  replace (String.length s + String.length x - String.length x - 0)%nat
    with (String.length s) by lia.
  apply substring_0_app.
Qed.

Lemma TrimPrefix_none (s p : string) : HasPrefix s p = false -> TrimPrefix s p = s.
Proof. unfold TrimPrefix. now intros ->. Qed.

Lemma TrimSuffix_none (s x : string) : HasSuffix s x = false -> TrimSuffix s x = s.
Proof. unfold TrimSuffix. now intros ->. Qed.

Lemma Contains_app (p x q : string) : Contains (p ++ x ++ q) x = true.
Proof.
  induction p as [|c p IH].
  - rewrite app_nil. destruct (x ++ q) eqn:E; cbn [Contains]; rewrite <- E, HasPrefix_app; reflexivity.
  - rewrite app_cons. cbn [Contains]. rewrite IH. apply orb_true_r.
Qed.

Lemma app_assoc (s t u : string) : (s ++ t) ++ u = s ++ t ++ u.
Proof.
  induction s as [|c s IH]; [reflexivity|].
  rewrite !app_cons. now rewrite IH.
Qed.

(** The second of two values embedded in a message. *)
Lemma Contains_app2 (p1 x1 p2 x2 q : string) :
  Contains (p1 ++ x1 ++ p2 ++ x2 ++ q) x2 = true.
Proof.
  rewrite <- (app_assoc x1 p2), <- (app_assoc p1).
  apply Contains_app.
Qed.

(** [HasPrefix s "="] looks at the first byte. *)
Lemma HasPrefix_byte (c d : ascii) (t : string) :
  HasPrefix (String c t) (String d "") = Ascii.eqb c d.
Proof.
  unfold HasPrefix, slice. simpl. destruct t; simpl;
    destruct (Ascii.eqb c d); reflexivity.
Qed.

Lemma Contains_byte_cons (c d : ascii) (t : string) :
  Contains (String c t) (String d "") = Ascii.eqb c d || Contains t (String d "").
Proof. cbn [Contains]. now rewrite HasPrefix_byte. Qed.

(** [SplitN2] finds a separator exactly when [Contains] does. *)
Lemma SplitN2_None (s : string) (sep : ascii) :
  SplitN2 s sep = None <-> Contains s (String sep "") = false.
Proof.
  induction s as [|c s IH].
  - cbn. tauto.
  - rewrite Contains_byte_cons. cbn [SplitN2].
    destruct (Ascii.eqb c sep); cbn; [split; discriminate|].
    destruct (SplitN2 s sep) as [[a b]|]; [|tauto].
    split; [discriminate|]. intros H. apply IH in H. discriminate.
Qed.

(** What [SplitN2] returns: the parts around the first separator. *)
Lemma SplitN2_Some (s : string) (sep : ascii) (k v : string) :
  SplitN2 s sep = Some (k, v) <->
  s = k ++ String sep v /\ Contains k (String sep "") = false.
Proof.
  revert k. induction s as [|c s IH]; intros k.
  - cbn. split; [discriminate|]. intros [E _]. destruct k; discriminate.
  - cbn [SplitN2]. destruct (Ascii.eqb_spec c sep) as [->|N].
    + split.
      * intros [= <- <-]. now split.
      * intros [E C]. destruct k as [|d k]; simpl in E.
        -- now injection E as ->.
        -- injection E as <- _. rewrite Contains_byte_cons, Ascii.eqb_refl in C. discriminate.
    + split.
      * destruct (SplitN2 s sep) as [[a b]|]; [|discriminate].
        intros [= <- <-]. destruct (proj1 (IH a) eq_refl) as [-> C].
        split; [reflexivity|]. rewrite Contains_byte_cons, C.
        destruct (Ascii.eqb_spec c sep); [contradiction | reflexivity].
      * intros [E' C]. destruct k as [|d k]; simpl in E'; injection E' as -> E'.
        -- contradiction.
        -- rewrite Contains_byte_cons in C. apply orb_false_elim in C as [_ C].
           now rewrite (proj2 (IH k) (conj E' C)).
Qed.

End StringsFacts.

(** ** The reference [ParseFloat] rejects the grammar markers *)

Module StrconvFacts.

Import strings strconv StringsFacts.

Lemma last_byte_app (s : string) (c : ascii) : last_byte (s ++ String c "") = Some c.
Proof.
  induction s as [|d s IH]; [reflexivity|].
  rewrite app_cons. simpl. rewrite IH.
  destruct s; reflexivity.
Qed.

Lemma last_byte_lower (s : string) : last_byte (lower_string s) = option_map lower (last_byte s).
Proof.
  induction s as [|d s IH]; [reflexivity|].
  simpl. rewrite IH. destruct s; reflexivity.
Qed.

(** No special name ends in a percent sign. *)
Lemma lower_percent_neq (t w : string) :
  last_byte w <> Some "%"%char -> String.eqb (lower_string (t ++ "%")) w = false.
Proof.
  intros N. apply String.eqb_neq. intros E. apply N.
  now rewrite <- E, last_byte_lower, last_byte_app.
Qed.

Lemma read_exp_digits_percent (u : string) (e : Z) : read_exp_digits (u ++ "%") e = None.
Proof.
  revert e. induction u as [|c u IH]; intros e; [reflexivity|].
  rewrite app_cons. simpl. destruct (is_digit c); [apply IH | reflexivity].
Qed.

Lemma read_exp_number_percent (u : string) : read_exp_number (u ++ "%") = None.
Proof.
  destruct u as [|d u]; [reflexivity|].
  rewrite app_cons. unfold read_exp_number.
  destruct (is_digit d); [|reflexivity].
  rewrite <- app_cons. apply read_exp_digits_percent.
Qed.

Lemma read_exp_percent (u : string) : read_exp (u ++ "%") = None.
Proof.
  destruct u as [|c u]; [reflexivity|].
  rewrite app_cons. unfold read_exp.
  destruct (Ascii.eqb (lower c) "e"); [|reflexivity].
  destruct u as [|d u]; [reflexivity|].
  rewrite app_cons.
  destruct (Ascii.eqb d "+"); [apply read_exp_number_percent|].
  destruct (Ascii.eqb d "-"); [now rewrite read_exp_number_percent|].
  rewrite <- app_cons. apply read_exp_number_percent.
Qed.

Lemma read_mantissa_percent (u : string) (sawdot sawdigits : bool) (mant dp : Z) :
  read_mantissa (u ++ "%") sawdot sawdigits mant dp = None.
Proof.
  revert sawdot sawdigits mant dp.
  induction u as [|c u IH]; intros sawdot sawdigits mant dp.
  - rewrite app_nil. simpl. now destruct sawdigits.
  - rewrite app_cons. cbn [read_mantissa].
    destruct (is_digit c); [apply IH|].
    destruct (Ascii.eqb c "."); [destruct sawdot; [reflexivity | apply IH]|].
    destruct sawdigits; [|reflexivity].
    rewrite <- app_cons, read_exp_percent. reflexivity.
Qed.

Lemma parse_unsigned_percent (neg : bool) (orig u : string) :
  snd (parse_unsigned neg orig (u ++ "%")) <> None.
Proof.
  unfold parse_unsigned.
  rewrite !lower_percent_neq by (cbn; discriminate).
  rewrite read_mantissa_percent. cbn. discriminate.
Qed.

Lemma ParseFloat_percent (t : string) : snd (ParseFloat (t ++ "%")) <> None.
Proof.
  unfold ParseFloat.
  rewrite lower_percent_neq by (cbn; discriminate).
  destruct t as [|c t].
  - cbn. discriminate.
  - rewrite app_cons.
    destruct (Ascii.eqb c "+"); [apply parse_unsigned_percent|].
    destruct (Ascii.eqb c "-"); [apply parse_unsigned_percent|].
    rewrite <- app_cons. apply parse_unsigned_percent.
Qed.

(** A string with the suffix is a string followed by the suffix. *)
Lemma substring_split (s : string) (n : nat) :
  (n <= String.length s)%nat ->
  s = substring 0 n s ++ substring n (String.length s - n) s.
Proof.
  revert n. induction s as [|c s IH]; intros n L.
  - destruct n; reflexivity.
  - destruct n as [|n].
    + simpl. now rewrite app_nil, substring_all.
    + simpl in *. rewrite app_cons. f_equal. apply IH. lia.
Qed.

Lemma HasSuffix_inv (s x : string) : HasSuffix s x = true -> exists t, s = t ++ x.
Proof.
  unfold HasSuffix, slice. intros H.
  apply andb_prop in H as [L E].
  apply Nat.leb_le in L. apply String.eqb_eq in E.
  exists (substring 0 (String.length s - String.length x) s).
  rewrite (substring_split s (String.length s - String.length x)) at 1 by lia.
  now rewrite E.
Qed.

Lemma HasPrefix_inv (s p : string) : HasPrefix s p = true -> exists t, s = p ++ t.
Proof.
  unfold HasPrefix, slice. intros H.
  apply andb_prop in H as [L E].
  apply Nat.leb_le in L. apply String.eqb_eq in E.
  exists (substring (String.length p) (String.length s - String.length p) s).
  rewrite (substring_split s (String.length p)) at 1 by lia.
  rewrite Nat.sub_0_r in E. now rewrite E.
Qed.

Lemma ParseFloat_ratio_prefix (t : string) : snd (ParseFloat ("1:" ++ t)) <> None.
Proof. cbn. discriminate. Qed.

(** What the theorems below ask of a parser, for the reference instance:
    an accepted string is not empty, does not end in a percent sign and
    does not start with ["1:"]. *)
Lemma ParseFloat_accepts (s : string) (a : float) :
  ParseFloat s = (a, None) ->
  s <> "" /\ HasSuffix s "%" = false /\ HasPrefix s "1:" = false.
Proof.
  intros P. split; [|split].
  - intros ->. discriminate P.
  - apply not_true_is_false. intros H.
    destruct (HasSuffix_inv _ _ H) as [t ->].
    apply (ParseFloat_percent t). now rewrite P.
  - apply not_true_is_false. intros H.
    destruct (HasPrefix_inv _ _ H) as [t ->].
    apply (ParseFloat_ratio_prefix t). now rewrite P.
Qed.

End StrconvFacts.

(** ** The acceptability checks, step by step *)

Section AcceptableFacts.

Variable ParseFloat : string -> float * option error.
Variable duration_Parse : string -> time.Duration * option error.
Variable Duration_of_float64 : float -> time.Duration.

Lemma coverageAcceptable_parsed (cov : float) (cond : string) (a : float) :
  cond <> "" -> ParseFloat (strings.TrimSuffix cond "%") = (a, None) ->
  coverageAcceptable ParseFloat cov cond =
  if (cov <? a)%float then
    Some (Errorf ("code coverage is " ++ fmt.Sprintf_f1 cov
                  ++ "%, which is below the accepted " ++ fmt.Sprintf_f1 a ++ "%"))
  else None.
Proof.
  intros N P. unfold coverageAcceptable.
  apply String.eqb_neq in N. now rewrite N, P.
Qed.

Lemma codeToTestRatioAcceptable_parsed (ratio : float) (cond : string) (a : float) :
  cond <> "" -> ParseFloat (strings.TrimPrefix cond "1:") = (a, None) ->
  codeToTestRatioAcceptable ParseFloat ratio cond =
  if (ratio <? a)%float then
    Some (Errorf ("code to test ratio is 1:" ++ fmt.Sprintf_f1 ratio
                  ++ ", which is below the accepted 1:" ++ fmt.Sprintf_f1 a))
  else None.
Proof.
  intros N P. unfold codeToTestRatioAcceptable.
  apply String.eqb_neq in N. now rewrite N, P.
Qed.

Lemma testExecutionTimeAcceptable_parsed (t : float) (cond : string) (d : time.Duration) :
  cond <> "" -> duration_Parse cond = (d, None) ->
  testExecutionTimeAcceptable duration_Parse Duration_of_float64 t cond =
  if Float64.gtb t (Float64.of_int d) then
    Some (Errorf ("test execution time is "
                  ++ time.Duration_String (Duration_of_float64 t)
                  ++ ", which is above the accepted " ++ time.Duration_String d))
  else None.
Proof.
  intros N P. unfold testExecutionTimeAcceptable.
  apply String.eqb_neq in N. now rewrite N, P.
Qed.

(** "Not below" is "at least" away from NaN, and a NaN is never below. *)
Lemma not_below_iff (v a : float) (e : error) :
  Float64.is_nan v = false -> Float64.is_nan a = false ->
  (if (v <? a)%float then Some e else None) = None <-> Float64.geb v a = true.
Proof.
  intros Hv Ha. unfold Float64.geb.
  rewrite <- (Float64Facts.ltb_false_leb v a Hv Ha).
  destruct (v <? a)%float; split; congruence.
Qed.

Lemma nan_not_below (v a : float) (e : error) :
  Float64.is_nan v = true \/ Float64.is_nan a = true ->
  (if (v <? a)%float then Some e else None) = None.
Proof. intros H. now rewrite (Float64Facts.ltb_nan v a H). Qed.

(** C6: for every metric kind and every value, the check against the empty
    threshold passes (returns [nil]). *)
Theorem empty_threshold_passes (v : float) :
  coverageAcceptable ParseFloat v "" = None
  /\ codeToTestRatioAcceptable ParseFloat v "" = None
  /\ testExecutionTimeAcceptable duration_Parse Duration_of_float64 v "" = None.
Proof. repeat split. Qed.

(** C1, as amended: away from NaN, a coverage or ratio value passes a
    threshold that parses to [a] exactly when [v >= a], and an elapsed time
    passes a threshold that parses to [d] nanoseconds exactly when
    [t <= float64(d)], the threshold converted to [float64]; a NaN value or
    threshold always passes.  With ["80%"],
    80.0 passes and 79.9 fails; with ["10m"], 599e9 ns passes and 601e9 ns
    fails. *)
Theorem acceptable_direction :
  (forall v cond a,
      cond <> "" -> ParseFloat (strings.TrimSuffix cond "%") = (a, None) ->
      (Float64.is_nan v = false -> Float64.is_nan a = false ->
       (coverageAcceptable ParseFloat v cond = None <-> Float64.geb v a = true))
      /\ (Float64.is_nan v = true \/ Float64.is_nan a = true ->
          coverageAcceptable ParseFloat v cond = None))
  /\ (forall v cond a,
      cond <> "" -> ParseFloat (strings.TrimPrefix cond "1:") = (a, None) ->
      (Float64.is_nan v = false -> Float64.is_nan a = false ->
       (codeToTestRatioAcceptable ParseFloat v cond = None <-> Float64.geb v a = true))
      /\ (Float64.is_nan v = true \/ Float64.is_nan a = true ->
          codeToTestRatioAcceptable ParseFloat v cond = None))
  /\ (forall t cond d,
      cond <> "" -> duration_Parse cond = (d, None) ->
      (Float64.is_nan t = false ->
       (testExecutionTimeAcceptable duration_Parse Duration_of_float64 t cond = None
        <-> (t <=? Float64.of_int d)%float = true))
      /\ (Float64.is_nan t = true ->
          testExecutionTimeAcceptable duration_Parse Duration_of_float64 t cond = None))
  /\ (ParseFloat "80" = (80%float, None) ->
      coverageAcceptable ParseFloat 80 "80%" = None
      /\ coverageAcceptable ParseFloat 79.9 "80%" <> None)
  /\ (duration_Parse "10m" = (600000000000, None) ->
      testExecutionTimeAcceptable duration_Parse Duration_of_float64 599000000000 "10m" = None
      /\ testExecutionTimeAcceptable duration_Parse Duration_of_float64 601000000000 "10m"
         <> None).
Proof.
  repeat apply conj.
  - intros v cond a N P. rewrite (coverageAcceptable_parsed v cond a N P).
    split; [apply not_below_iff | apply nan_not_below].
  - intros v cond a N P. rewrite (codeToTestRatioAcceptable_parsed v cond a N P).
    split; [apply not_below_iff | apply nan_not_below].
  - intros t cond d N P. rewrite (testExecutionTimeAcceptable_parsed t cond d N P).
    unfold Float64.gtb. split.
    + intros Ht.
      rewrite <- (Float64Facts.ltb_false_leb _ _ (ConversionFacts.of_int_not_nan d) Ht).
      destruct (Float64.of_int d <? t)%float; split; congruence.
    + intros Ht. now rewrite (Float64Facts.ltb_nan (Float64.of_int d) t (or_intror Ht)).
  - intros P.
    rewrite !(coverageAcceptable_parsed _ "80%" 80) by (discriminate || exact P).
    split; [reflexivity | discriminate].
  - intros P.
    rewrite !(testExecutionTimeAcceptable_parsed _ "10m" 600000000000)
      by (discriminate || exact P).
    split; [reflexivity | discriminate].
Qed.

End AcceptableFacts.

(** The amended C1 at the reference parsers: thresholds ["80%"], ["1:1.0"]
    and ["10m"]. *)
Lemma acceptable_direction_witness :
  (coverageAcceptable strconv.ParseFloat 85 "80%" = None <-> Float64.geb 85 80 = true)
  /\ (codeToTestRatioAcceptable strconv.ParseFloat 0.99 "1:1.0" = None
      <-> Float64.geb 0.99 1 = true)
  /\ (testExecutionTimeAcceptable duration.Parse time.Duration_of_float64 599000000000 "10m"
      = None <-> (599000000000 <=? Float64.of_int 600000000000)%float = true)
  /\ (coverageAcceptable strconv.ParseFloat 80 "80%" = None
      /\ coverageAcceptable strconv.ParseFloat 79.9 "80%" <> None)
  /\ (testExecutionTimeAcceptable duration.Parse time.Duration_of_float64 599000000000 "10m"
      = None
      /\ testExecutionTimeAcceptable duration.Parse time.Duration_of_float64 601000000000 "10m"
         <> None).
Proof.
  destruct (acceptable_direction strconv.ParseFloat duration.Parse time.Duration_of_float64)
    as (Hc & Hr & Ht & H80 & H10m).
  split; [|split; [|split; [|split]]].
  - refine (proj1 (Hc 85%float "80%" 80%float _ _) _ _); (discriminate || reflexivity).
  - refine (proj1 (Hr 0.99%float "1:1.0" 1%float _ _) _ _); (discriminate || reflexivity).
  - refine (proj1 (Ht 599000000000%float "10m" 600000000000 _ _) _);
      (discriminate || reflexivity).
  - apply H80. reflexivity.
  - apply H10m. reflexivity.
Defined.

(** C1 as stated fails on NaN: the coverage value NaN passes the threshold
    ["80%"] although [NaN >= 80] is false.  It also fails where [float64(d)]
    is above [d]: the threshold ["4611686019s"] is 4611686019000000000 ns,
    and the elapsed time 4611686019000000512 ns, which is [float64] of it,
    passes. *)
Lemma acceptable_direction_counterexample :
  ~ (forall v cond a,
        cond <> "" -> strconv.ParseFloat (strings.TrimSuffix cond "%") = (a, None) ->
        (coverageAcceptable strconv.ParseFloat v cond = None <-> Float64.geb v a = true))
  /\ (duration.Parse "4611686019s" = (4611686019000000000, None)
      /\ Prim2SF (Float64.of_int 4611686019000000000)
         = S754_finite false 4503599627929688 10
      /\ 4503599627929688 * 2 ^ 10 = 4611686019000000512
      /\ testExecutionTimeAcceptable duration.Parse time.Duration_of_float64
           (Float64.of_int 4611686019000000000) "4611686019s" = None).
Proof.
  split.
  - intros H.
    assert (E : Float64.geb nan 80 = true).
    { refine (proj1 (H nan "80%" 80%float _ _) _); (discriminate || reflexivity). }
    discriminate E.
  - repeat split; vm_compute; reflexivity.
Qed.

(** ** Badge colours *)

Lemma colours_distinct : NoDup [green; yellowgreen; yellow; orange; red].
Proof. apply (bool_decide_unpack _). vm_compute. exact I. Qed.

(** Between two thresholds [lo <= hi]: being at least [hi] implies being at
    least [lo]; and at least [lo] but not at least [hi] is below [hi]. *)
Lemma geb_mono (v lo hi : float) :
  (lo <=? hi)%float = true -> Float64.geb v hi = true -> Float64.geb v lo = true.
Proof. unfold Float64.geb. intros L H. exact (Float64Facts.leb_trans lo hi v L H). Qed.

Lemma geb_false_ltb (v lo hi : float) :
  (lo <=? hi)%float = true ->
  Float64.geb v lo = true -> Float64.geb v hi = false -> (v <? hi)%float = true.
Proof.
  unfold Float64.geb. intros L H N.
  destruct (Float64Facts.leb_not_nan _ _ L) as [_ Hhi].
  destruct (Float64Facts.leb_not_nan _ _ H) as [_ Hv].
  destruct (v <? hi)%float eqn:E; [reflexivity|].
  apply (Float64Facts.ltb_false_leb v hi Hv Hhi) in E. congruence.
Qed.

Lemma ltb_geb_false (v hi : float) :
  (v <? hi)%float = true -> Float64.geb v hi = false.
Proof.
  unfold Float64.geb. intros L.
  destruct (hi <=? v)%float eqn:E; [|reflexivity].
  destruct (Float64Facts.leb_not_nan _ _ E) as [Hhi Hv].
  apply (Float64Facts.ltb_false_leb v hi Hv Hhi) in E. congruence.
Qed.

(** A ladder of four thresholds [t4 <= t3 <= t2 <= t1], as the two
    [float64] colour functions are written. *)
Lemma ladder_table (t1 t2 t3 t4 v : float) :
  (t2 <=? t1)%float = true -> (t3 <=? t2)%float = true -> (t4 <=? t3)%float = true ->
  let c := if Float64.geb v t1 then green
           else if Float64.geb v t2 then yellowgreen
           else if Float64.geb v t3 then yellow
           else if Float64.geb v t4 then orange
           else red in
  (c = green <-> Float64.geb v t1 = true)
  /\ (c = yellowgreen <-> Float64.geb v t2 = true /\ (v <? t1)%float = true)
  /\ (c = yellow <-> Float64.geb v t3 = true /\ (v <? t2)%float = true)
  /\ (c = orange <-> Float64.geb v t4 = true /\ (v <? t3)%float = true)
  /\ (c = red <-> Float64.geb v t4 = false).
Proof.
  intros L12 L23 L34 c. subst c.
  pose proof (geb_mono v t2 t1 L12) as M1.
  pose proof (geb_mono v t3 t2 L23) as M2.
  pose proof (geb_mono v t4 t3 L34) as M3.
  pose proof (geb_false_ltb v t2 t1 L12) as B1.
  pose proof (geb_false_ltb v t3 t2 L23) as B2.
  pose proof (geb_false_ltb v t4 t3 L34) as B3.
  pose proof (ltb_geb_false v t1) as A1.
  pose proof (ltb_geb_false v t2) as A2.
  pose proof (ltb_geb_false v t3) as A3.
  destruct (Float64.geb v t1) eqn:E1, (Float64.geb v t2) eqn:E2,
           (Float64.geb v t3) eqn:E3, (Float64.geb v t4) eqn:E4;
    repeat split; intros; try discriminate; try reflexivity; try tauto;
    try (destruct_and?; match goal with H : (_ <? _)%float = true |- _ =>
           first [ apply A1 in H | apply A2 in H | apply A3 in H ]; congruence end);
    try (specialize (M1 eq_refl); congruence);
    try (specialize (M2 eq_refl); congruence);
    try (specialize (M3 eq_refl); congruence);
    auto.
Qed.

(** C2: each colour function realizes its table of thresholds, and the
    boundary values 80.0, 60.0, 1.2, 1.0 and five minutes land in the tier
    the table gives.  The five colours are distinct, so exactly one tier
    applies to every input. *)
Theorem colour_tables :
  (forall v : float,
      (CoverageColor v = green <-> Float64.geb v 80 = true)
      /\ (CoverageColor v = yellowgreen <-> Float64.geb v 60 = true /\ (v <? 80)%float = true)
      /\ (CoverageColor v = yellow <-> Float64.geb v 40 = true /\ (v <? 60)%float = true)
      /\ (CoverageColor v = orange <-> Float64.geb v 20 = true /\ (v <? 40)%float = true)
      /\ (CoverageColor v = red <-> Float64.geb v 20 = false))
  /\ (forall v : float,
      (CodeToTestRatioColor v = green <-> Float64.geb v 1.2 = true)
      /\ (CodeToTestRatioColor v = yellowgreen
          <-> Float64.geb v 1.0 = true /\ (v <? 1.2)%float = true)
      /\ (CodeToTestRatioColor v = yellow
          <-> Float64.geb v 0.8 = true /\ (v <? 1.0)%float = true)
      /\ (CodeToTestRatioColor v = orange
          <-> Float64.geb v 0.6 = true /\ (v <? 0.8)%float = true)
      /\ (CodeToTestRatioColor v = red <-> Float64.geb v 0.6 = false))
  /\ (forall d : time.Duration,
      (TestExecutionTimeColor d = green <-> d < 5 * time.Minute)
      /\ (TestExecutionTimeColor d = yellowgreen
          <-> 5 * time.Minute <= d < 10 * time.Minute)
      /\ (TestExecutionTimeColor d = yellow <-> 10 * time.Minute <= d < 15 * time.Minute)
      /\ (TestExecutionTimeColor d = orange <-> 15 * time.Minute <= d < 20 * time.Minute)
      /\ (TestExecutionTimeColor d = red <-> 20 * time.Minute <= d))
  /\ (CoverageColor 80.0 = green /\ CoverageColor 60.0 = yellowgreen
      /\ CodeToTestRatioColor 1.2 = green /\ CodeToTestRatioColor 1.0 = yellowgreen
      /\ TestExecutionTimeColor (5 * time.Minute) = yellowgreen)
  /\ NoDup [green; yellowgreen; yellow; orange; red].
Proof.
  split; [|split; [|split; [|split]]].
  - intros v. apply (ladder_table 80 60 40 20 v); reflexivity.
  - intros v. apply (ladder_table 1.2 1.0 0.8 0.6 v); reflexivity.
  - intros d. unfold TestExecutionTimeColor.
    change (5 * time.Minute) with 300000000000.
    change (10 * time.Minute) with 600000000000.
    change (15 * time.Minute) with 900000000000.
    change (20 * time.Minute) with 1200000000000.
    destruct (Z.ltb_spec d 300000000000), (Z.ltb_spec d 600000000000),
             (Z.ltb_spec d 900000000000), (Z.ltb_spec d 1200000000000);
      repeat split; intros; try discriminate; try reflexivity; lia.
  - repeat split.
  - exact colours_distinct.
Qed.

(** ** Error messages *)

(** [%.1f] of a finite value: an optional sign, the integer part, a point
    and one digit. *)
Lemma Sprintf_f1_one_decimal (x : float) (s : bool) (m : positive) (e : Z) :
  Prim2SF x = S754_finite s m e ->
  exists (int digit : Z),
    0 <= digit < 10
    /\ fmt.Sprintf_f1 x = (if s then "-" else "") ++ fmt.itoa int ++ "." ++ fmt.itoa digit.
Proof.
  intros E. unfold fmt.Sprintf_f1. rewrite E.
  exists (fmt.tenths m e / 10), (fmt.tenths m e mod 10).
  split; [apply Z.mod_pos_bound; lia | reflexivity].
Qed.

Section MessageFacts.

Variable ParseFloat : string -> float * option error.
Variable duration_Parse : string -> time.Duration * option error.
Variable Duration_of_float64 : float -> time.Duration.

(** C7: when a value fails its threshold, the error message contains the
    observed value and the accepted threshold: both printed with [%.1f]
    (one digit after the point, for a finite value) for coverage and ratio,
    both printed as a [time.Duration] for execution time.  The message of
    [coverageAcceptable(79.9, "80%")] contains ["79.9"] and ["80.0"]. *)
Theorem failure_message_embeds_values :
  (forall v cond a,
      cond <> "" -> ParseFloat (strings.TrimSuffix cond "%") = (a, None) ->
      coverageAcceptable ParseFloat v cond <> None ->
      exists e,
        coverageAcceptable ParseFloat v cond = Some e
        /\ strings.Contains (Error e) (fmt.Sprintf_f1 v) = true
        /\ strings.Contains (Error e) (fmt.Sprintf_f1 a) = true)
  /\ (forall v cond a,
      cond <> "" -> ParseFloat (strings.TrimPrefix cond "1:") = (a, None) ->
      codeToTestRatioAcceptable ParseFloat v cond <> None ->
      exists e,
        codeToTestRatioAcceptable ParseFloat v cond = Some e
        /\ strings.Contains (Error e) (fmt.Sprintf_f1 v) = true
        /\ strings.Contains (Error e) (fmt.Sprintf_f1 a) = true)
  /\ (forall t cond d,
      cond <> "" -> duration_Parse cond = (d, None) ->
      testExecutionTimeAcceptable duration_Parse Duration_of_float64 t cond <> None ->
      exists e,
        testExecutionTimeAcceptable duration_Parse Duration_of_float64 t cond = Some e
        /\ strings.Contains (Error e) (time.Duration_String (Duration_of_float64 t)) = true
        /\ strings.Contains (Error e) (time.Duration_String d) = true)
  /\ (forall x s m e,
      Prim2SF x = S754_finite s m e ->
      exists int digit : Z,
        0 <= digit < 10
        /\ fmt.Sprintf_f1 x = (if s then "-" else "") ++ fmt.itoa int ++ "." ++ fmt.itoa digit)
  /\ (ParseFloat "80" = (80%float, None) ->
      exists e,
        coverageAcceptable ParseFloat 79.9 "80%" = Some e
        /\ strings.Contains (Error e) "79.9" = true
        /\ strings.Contains (Error e) "80.0" = true).
Proof.
  split; [|split; [|split; [|split; [exact Sprintf_f1_one_decimal|]]]].
  - intros v cond a N P. rewrite (coverageAcceptable_parsed ParseFloat v cond a N P).
    destruct (v <? a)%float; [intros _ | congruence].
    eexists. split; [reflexivity|]. cbn [Error]. split.
    + apply StringsFacts.Contains_app.
    + apply StringsFacts.Contains_app2.
  - intros v cond a N P. rewrite (codeToTestRatioAcceptable_parsed ParseFloat v cond a N P).
    destruct (v <? a)%float; [intros _ | congruence].
    eexists. split; [reflexivity|]. cbn [Error]. split.
    + apply StringsFacts.Contains_app.
    + rewrite <- (StringsFacts.app_nil_r (fmt.Sprintf_f1 a)) at 1.
      apply StringsFacts.Contains_app2.
  - intros t cond d N P.
    rewrite (testExecutionTimeAcceptable_parsed duration_Parse Duration_of_float64 t cond d N P).
    destruct (Float64.gtb t (Float64.of_int d)); [intros _ | congruence].
    eexists. split; [reflexivity|]. cbn [Error]. split.
    + apply StringsFacts.Contains_app.
    + rewrite <- (StringsFacts.app_nil_r (time.Duration_String d)) at 1.
      apply StringsFacts.Contains_app2.
  - intros P.
    rewrite (coverageAcceptable_parsed ParseFloat _ "80%" 80) by (discriminate || exact P).
    eexists. split; [reflexivity|]. split; reflexivity.
Qed.

End MessageFacts.

(** C7 at the reference parsers. *)
Lemma failure_message_embeds_values_witness :
  (exists e,
      coverageAcceptable strconv.ParseFloat 79.9 "80%" = Some e
      /\ strings.Contains (Error e) "79.9" = true
      /\ strings.Contains (Error e) "80.0" = true)
  /\ (exists e,
      codeToTestRatioAcceptable strconv.ParseFloat 0.5 "1:1.2" = Some e
      /\ strings.Contains (Error e) "0.5" = true
      /\ strings.Contains (Error e) "1.2" = true)
  /\ (exists e,
      testExecutionTimeAcceptable duration.Parse time.Duration_of_float64 601000000000 "10m"
      = Some e
      /\ strings.Contains (Error e) "10m1s" = true
      /\ strings.Contains (Error e) "10m0s" = true).
Proof.
  destruct (failure_message_embeds_values strconv.ParseFloat duration.Parse
              time.Duration_of_float64) as (Hc & Hr & Ht & _ & H80).
  split; [|split].
  - apply H80. reflexivity.
  - refine (Hr 0.5%float "1:1.2" 1.2%float _ _ _); (discriminate || reflexivity).
  - refine (Ht 601000000000%float "10m" 600000000000 _ _ _); (discriminate || reflexivity).
Defined.

(** ** Optional grammar markers *)

Section MarkerFacts.

Variable ParseFloat : string -> float * option error.

(** What is asked of the parser: a string it accepts is not empty, does not
    end in a percent sign and does not start with ["1:"]. *)
Hypothesis ParseFloat_accepts :
  forall s a, ParseFloat s = (a, None) ->
    s <> "" /\ strings.HasSuffix s "%" = false /\ strings.HasPrefix s "1:" = false.

(** C9: for a string [s] that parses as a number, the coverage check gives
    the same result on [s] and on [s ++ "%"], and the ratio check gives the
    same result on [s] and on ["1:" ++ s]. *)
Theorem grammar_markers_optional (v : float) (s : string) (a : float) :
  ParseFloat s = (a, None) ->
  coverageAcceptable ParseFloat v s = coverageAcceptable ParseFloat v (s ++ "%")
  /\ codeToTestRatioAcceptable ParseFloat v s
     = codeToTestRatioAcceptable ParseFloat v ("1:" ++ s).
Proof.
  intros P. destruct (ParseFloat_accepts s a P) as (N & Hs & Hp).
  assert (N1 : s ++ "%" <> "") by (destruct s; discriminate).
  assert (N2 : "1:" ++ s <> "") by discriminate.
  split.
  - rewrite (coverageAcceptable_parsed ParseFloat v s a N)
      by (now rewrite StringsFacts.TrimSuffix_none).
    rewrite (coverageAcceptable_parsed ParseFloat v (s ++ "%") a N1)
      by (now rewrite StringsFacts.TrimSuffix_app).
    reflexivity.
  - rewrite (codeToTestRatioAcceptable_parsed ParseFloat v s a N)
      by (now rewrite StringsFacts.TrimPrefix_none).
    rewrite (codeToTestRatioAcceptable_parsed ParseFloat v ("1:" ++ s) a N2)
      by (now rewrite StringsFacts.TrimPrefix_app).
    reflexivity.
Qed.

End MarkerFacts.

(** C9 at the reference parser, for the threshold ["80"]. *)
Lemma grammar_markers_optional_witness :
  coverageAcceptable strconv.ParseFloat 79.9 "80"
  = coverageAcceptable strconv.ParseFloat 79.9 "80%"
  /\ codeToTestRatioAcceptable strconv.ParseFloat 79.9 "80"
     = codeToTestRatioAcceptable strconv.ParseFloat 79.9 "1:80".
Proof.
  exact (grammar_markers_optional strconv.ParseFloat StrconvFacts.ParseFloat_accepts
           79.9%float "80" 80%float eq_refl).
Defined.

(** ** The environment map *)

Module EnvFacts.

Import strings StringsFacts.

(** An entry [k=v] sets [k] to [v]. *)
Lemma envMap_step_entry (m : gmap string string) (k v : string) :
  Contains k "=" = false -> envMap_step m (k ++ "=" ++ v) = <[k := v]> m.
Proof.
  intros C. unfold envMap_step.
  rewrite (Contains_app k "=" v). cbn [negb].
  now rewrite (proj2 (SplitN2_Some (k ++ "=" ++ v) "=" k v) (conj eq_refl C)).
Qed.

(** Every step is a skip or a set of the entry's own key. *)
Lemma envMap_step_cases (m : gmap string string) (kv : string) :
  envMap_step m kv = m
  \/ exists k v, kv = k ++ "=" ++ v /\ Contains k "=" = false /\ envMap_step m kv = <[k := v]> m.
Proof.
  unfold envMap_step. destruct (Contains kv "=") eqn:C; [|now left]. right. cbn [negb].
  destruct (SplitN2 kv "=") as [[k v]|] eqn:E.
  - apply SplitN2_Some in E as [-> Ck]. now exists k, v.
  - apply SplitN2_None in E. congruence.
Qed.

(** Later entries with other keys leave the value of [k] alone. *)
Lemma foldl_other_keys (post : list string) (m : gmap string string) (k : string) :
  Contains k "=" = false ->
  (forall v', ~ In (k ++ "=" ++ v') post) ->
  foldl envMap_step m post !! k = m !! k.
Proof.
  intros C. revert m. induction post as [|kv post IH]; intros m N; [reflexivity|].
  cbn [foldl]. rewrite IH by (intros v' H; apply (N v'); now right).
  destruct (envMap_step_cases m kv) as [-> | (k' & v' & -> & C' & ->)]; [reflexivity|].
  apply lookup_insert_ne. intros ->. apply (N v'). now left.
Qed.

(** The value of a key comes from the map before or from an entry. *)
Lemma foldl_lookup (l : list string) (m : gmap string string) (k v : string) :
  foldl envMap_step m l !! k = Some v ->
  m !! k = Some v \/ In (k ++ "=" ++ v) l.
Proof.
  revert m. induction l as [|kv l IH]; intros m H; [now left|].
  cbn [foldl] in H. apply IH in H as [H | H]; [|right; now right].
  destruct (envMap_step_cases m kv) as [E | (k' & v' & -> & C' & E)]; rewrite E in H.
  - now left.
  - destruct (decide (k' = k)) as [->|Nk].
    + rewrite lookup_insert_eq in H. injection H as ->. right. now left.
    + rewrite lookup_insert_ne in H by assumption. now left.
Qed.

(** A key set once stays set. *)
Lemma foldl_is_Some (l : list string) (m : gmap string string) (k : string) :
  is_Some (m !! k) -> is_Some (foldl envMap_step m l !! k).
Proof.
  revert m. induction l as [|kv l IH]; intros m H; [exact H|].
  cbn [foldl]. apply IH.
  destruct (envMap_step_cases m kv) as [-> | (k' & v' & _ & _ & ->)]; [exact H|].
  destruct (decide (k' = k)) as [->|Nk].
  - rewrite lookup_insert_eq. eauto.
  - now rewrite lookup_insert_ne.
Qed.

Lemma envMap_app (pre post : list string) :
  envMap (pre ++ post) = foldl envMap_step (envMap pre) post.
Proof. unfold envMap. apply foldl_app. Qed.

End EnvFacts.

(** C8, as amended: every entry [K=V] of the environment (split at its
    first [=], so [V] may contain [=]) puts [K] in the map, with the value of
    some entry for [K]; the value is the whole [V] when no later entry has
    the same key [K].  Nothing else is in the map, and the map is what the
    gate's variables hold under ["env"]. *)
Theorem envMap_entries (environ : list string) (k v : string) :
  strings.Contains k "=" = false ->
  In (k ++ "=" ++ v) environ ->
  (exists v', envMap environ !! k = Some v' /\ In (k ++ "=" ++ v') environ)
  /\ (forall pre post,
         environ = (pre ++ (k ++ "=" ++ v)%string :: post)%list ->
         (forall v', ~ In (k ++ "=" ++ v') post) ->
         envMap environ !! k = Some v)
  /\ (forall k' v', envMap environ !! k' = Some v' -> In (k' ++ "=" ++ v') environ)
  /\ (forall now e isDefaultBranch isPullRequest,
         variables now e (envMap environ) isDefaultBranch isPullRequest !! "env"
         = Some (VEnv (envMap environ))).
Proof.
  intros C I. split; [|split; [|split; [|reflexivity]]].
  - apply in_split in I as (pre & post & ->).
    rewrite EnvFacts.envMap_app. cbn [foldl].
    rewrite (EnvFacts.envMap_step_entry _ k v C).
    destruct (EnvFacts.foldl_is_Some post (<[k := v]> (envMap pre)) k) as [v' H].
    { rewrite lookup_insert_eq. eauto. }
    exists v'. split; [exact H|].
    apply EnvFacts.foldl_lookup in H as [H | H].
    + rewrite lookup_insert_eq in H. injection H as <-.
      apply in_or_app. right. now left.
    + apply in_or_app. right. now right.
  - intros pre post -> N.
    rewrite EnvFacts.envMap_app. cbn [foldl].
    rewrite (EnvFacts.envMap_step_entry _ k v C).
    rewrite (EnvFacts.foldl_other_keys post _ k C N).
    apply lookup_insert_eq.
  - intros k' v' H. unfold envMap in H.
    apply EnvFacts.foldl_lookup in H as [H | H]; [|exact H].
    rewrite lookup_empty in H. discriminate.
Qed.

(** The amended C8 on an environment of three entries. *)
Lemma envMap_entries_witness :
  envMap ["HOME=/root"; "OPTS=a=b=c"; "noise"; "CI=true"] !! "OPTS" = Some "a=b=c".
Proof.
  refine (proj1 (proj2 (envMap_entries ["HOME=/root"; "OPTS=a=b=c"; "noise"; "CI=true"]
                          "OPTS" "a=b=c" eq_refl _))
            ["HOME=/root"] ["noise"; "CI=true"] eq_refl _).
  - right. left. reflexivity.
  - intros v' [H | [H | []]]; discriminate H.
Defined.

(** C8 as stated fails when two entries share a key: the later entry wins.
    The entries ["=C:=C:\src"] and ["=D:=D:\"], as a Windows process has
    them, both split at their first [=] into the key [""]; the map holds the
    value of the second, not of the first. *)
Lemma envMap_entries_counterexample :
  ~ (forall (environ : list string) (k v : string),
        strings.Contains k "=" = false ->
        In (k ++ "=" ++ v) environ ->
        envMap environ !! k = Some v).
Proof.
  intros H.
  specialize (H ["=C:=C:\src"; "=D:=D:\"] "" "C:=C:\src" eq_refl (or_introl eq_refl)).
  vm_compute in H. discriminate H.
Qed.

(** ** The gate *)

Module GateFacts.

(** When the event decodes, the repository parses, a client is there and
    the default branch is known, [CheckIf] evaluates the formula. *)
Lemma CheckIf_assembled (w : World) (c : Config) (cond : string)
    (e : gh.GitHubEvent) (repo : gh.Repository) (g : gh.Gh) (defaultBranch : string) :
  cond <> "" ->
  DecodeGitHubEvent w = (e, None) ->
  Repository c <> "" ->
  gh_Parse w (Repository c) = (repo, None) ->
  gh c = Some g \/ (gh c = None /\ gh_New w = (g, None)) ->
  GetDefaultBranch w g (gh.Owner repo) (gh.Repo repo) = (defaultBranch, None) ->
  let vars :=
    variables (time_Now w) e (envMap (os_Environ w))
      (isDefaultBranch_of (DetectCurrentBranch w g) defaultBranch)
      (isPullRequest_of (DetectCurrentPullRequestNumber w g (gh.Owner repo) (gh.Repo repo))) in
  exists pre,
    CheckIf w c cond =
    (result_of_Eval (expr_Eval w (formula cond) vars),
     {| Repository := Repository c; gh := Some g |},
     (pre ++ [CallEval (formula cond) vars])%list)
    /\ forallb (fun k => negb (is_CallEval k)) pre = true.
Proof.
  intros N D R P G B vars. subst vars.
  apply String.eqb_neq in N, R.
  unfold CheckIf, CheckIf_body. rewrite N.
  unfold bind at 1. unfold perform at 1. rewrite D.
  unfold bind at 1. unfold get_Repository. cbn [cfg]. rewrite R.
  unfold bind at 1. unfold perform at 1. cbn [cfg]. rewrite P.
  destruct c as [r cg]. cbn [Repository gh] in *.
  destruct G as [-> | [-> G]].
  - exists [CallDecodeGitHubEvent; CallParse r;
            CallGetDefaultBranch g (gh.Owner repo) (gh.Repo repo); CallDetectCurrentBranch g;
            CallDetectCurrentPullRequestNumber g (gh.Owner repo) (gh.Repo repo);
            CallNow; CallEnviron].
    split; [|reflexivity].
    unfold bind, get_gh, perform, pure. cbn -[variables formula envMap]. rewrite B.
    destruct (DetectCurrentBranch w g) as [b [x|]],
             (DetectCurrentPullRequestNumber w g (gh.Owner repo) (gh.Repo repo)) as [n [y|]];
      cbn -[variables formula envMap]; try reflexivity;
      destruct (String.eqb b defaultBranch); reflexivity.
  - exists [CallDecodeGitHubEvent; CallParse r; CallNew;
            CallGetDefaultBranch g (gh.Owner repo) (gh.Repo repo); CallDetectCurrentBranch g;
            CallDetectCurrentPullRequestNumber g (gh.Owner repo) (gh.Repo repo);
            CallNow; CallEnviron].
    split; [|reflexivity].
    unfold bind, get_gh, set_gh, perform, pure. cbn -[variables formula envMap].
    rewrite G. cbn -[variables formula envMap]. rewrite B.
    destruct (DetectCurrentBranch w g) as [b [x|]],
             (DetectCurrentPullRequestNumber w g (gh.Owner repo) (gh.Repo repo)) as [n [y|]];
      cbn -[variables formula envMap]; try reflexivity;
      destruct (String.eqb b defaultBranch); reflexivity.
Qed.

(** Every call of [CheckIf] on a non-empty condition either returns an
    error before evaluating anything, or evaluates the formula once, as
    its last call, and ends as [result_of_Eval] says. *)
Lemma CheckIf_cases (w : World) (c : Config) (cond : string) :
  cond <> "" ->
  (exists x c',
      CheckIf w c cond = (Return false (Some x), c', snd (CheckIf w c cond))
      /\ forallb (fun k => negb (is_CallEval k)) (snd (CheckIf w c cond)) = true)
  \/ (exists vars c' pre,
      CheckIf w c cond =
      (result_of_Eval (expr_Eval w (formula cond) vars), c',
       (pre ++ [CallEval (formula cond) vars])%list)
      /\ forallb (fun k => negb (is_CallEval k)) pre = true).
Proof.
  intros N.
  destruct (DecodeGitHubEvent w) as [e [x|]] eqn:D.
  { left. apply String.eqb_neq in N.
    unfold CheckIf, CheckIf_body. rewrite N. unfold bind, perform, exit. rewrite D.
    cbn. eauto. }
  destruct (String.eqb (Repository c) "") eqn:R.
  { left. apply String.eqb_neq in N.
    unfold CheckIf, CheckIf_body. rewrite N.
    unfold bind, perform, exit, get_Repository. rewrite D. cbn. rewrite R.
    cbn. eauto. }
  destruct (gh_Parse w (Repository c)) as [repo [x|]] eqn:P.
  { left. apply String.eqb_neq in N.
    unfold CheckIf, CheckIf_body. rewrite N.
    unfold bind, perform, exit, get_Repository. rewrite D. cbn. rewrite R, P.
    cbn. eauto. }
  assert (G : (exists g, gh c = Some g \/ (gh c = None /\ gh_New w = (g, None)))
              \/ (gh c = None /\ exists g x, gh_New w = (g, Some x))).
  { destruct (gh c) as [g|]; [left; eauto|].
    destruct (gh_New w) as [g [x|]]; [right; eauto | left; eauto]. }
  destruct G as [[g G] | (G & g & x & G')].
  2:{ left. apply String.eqb_neq in N.
      unfold CheckIf, CheckIf_body. rewrite N.
      unfold bind, perform, exit, get_Repository, get_gh. rewrite D. cbn. rewrite R, P.
      cbn. rewrite G. cbn. rewrite G'. cbn. eauto. }
  destruct (GetDefaultBranch w g (gh.Owner repo) (gh.Repo repo)) as [db [x|]] eqn:B.
  { left. apply String.eqb_neq in N.
    unfold CheckIf, CheckIf_body. rewrite N.
    unfold bind, perform, exit, pure, get_Repository, get_gh, set_gh.
    rewrite D. cbn. rewrite R, P. cbn.
    destruct G as [G | [G G']]; rewrite G; cbn; rewrite ?G'; cbn; rewrite B; cbn; eauto. }
  right. apply String.eqb_neq in R.
  destruct (CheckIf_assembled w c cond e repo g db N D R P G B) as (pre & E & F).
  eauto.
Qed.

End GateFacts.

(** C4: on the empty condition, [CheckIf] returns [(true, nil)] at once: it
    makes no call (no event decoding, no repository parsing, no client, no
    lookup, no detection) and leaves its receiver as it was. *)
Theorem empty_condition_short_circuits (w : World) (c : Config) :
  CheckIf w c "" = (Return true None, c, []).
Proof. reflexivity. Qed.

(** C5: when the event decodes, the repository parses, a client is there
    and the default branch is known, [CheckIf] evaluates the formula and
    ends with what the evaluation gives: an error of branch detection only
    makes [is_default_branch] false, an error of pull request detection only
    makes [is_pull_request] false. *)
Theorem detection_errors_degrade (w : World) (c : Config) (cond : string)
    (e : gh.GitHubEvent) (repo : gh.Repository) (g : gh.Gh) (defaultBranch : string) :
  cond <> "" ->
  DecodeGitHubEvent w = (e, None) ->
  Repository c <> "" ->
  gh_Parse w (Repository c) = (repo, None) ->
  gh c = Some g \/ (gh c = None /\ gh_New w = (g, None)) ->
  GetDefaultBranch w g (gh.Owner repo) (gh.Repo repo) = (defaultBranch, None) ->
  exists (isDefaultBranch isPullRequest : bool) (vars : gmap string value),
    vars = variables (time_Now w) e (envMap (os_Environ w)) isDefaultBranch isPullRequest
    /\ vars !! "is_default_branch" = Some (VBool isDefaultBranch)
    /\ vars !! "is_pull_request" = Some (VBool isPullRequest)
    /\ (snd (DetectCurrentBranch w g) <> None -> isDefaultBranch = false)
    /\ (snd (DetectCurrentPullRequestNumber w g (gh.Owner repo) (gh.Repo repo)) <> None ->
        isPullRequest = false)
    /\ last (snd (CheckIf w c cond)) = Some (CallEval (formula cond) vars)
    /\ fst (fst (CheckIf w c cond)) = result_of_Eval (expr_Eval w (formula cond) vars).
Proof.
  intros N D R P G B.
  destruct (GateFacts.CheckIf_assembled w c cond e repo g defaultBranch N D R P G B)
    as (pre & E & _).
  exists (isDefaultBranch_of (DetectCurrentBranch w g) defaultBranch),
         (isPullRequest_of
            (DetectCurrentPullRequestNumber w g (gh.Owner repo) (gh.Repo repo))).
  eexists. split; [reflexivity|].
  rewrite E. cbn [fst snd]. rewrite last_snoc.
  split; [reflexivity|]. split; [reflexivity|]. split; [|split; [|split; reflexivity]].
  - destruct (DetectCurrentBranch w g) as [b [x|]]; [reflexivity | now intros []].
  - destruct (DetectCurrentPullRequestNumber w g _ _) as [n [x|]];
      [reflexivity | now intros []].
Qed.


(** C5 in a world where both detections fail. *)
Lemma detection_errors_degrade_witness :
  exists (isDefaultBranch isPullRequest : bool) (vars : gmap string value),
    vars = variables (time_Now detached_world)
             {| gh.Name := "push"; gh.Payload := VNil |}
             (envMap (os_Environ detached_world)) isDefaultBranch isPullRequest
    /\ vars !! "is_default_branch" = Some (VBool isDefaultBranch)
    /\ vars !! "is_pull_request" = Some (VBool isPullRequest)
    /\ (snd (DetectCurrentBranch detached_world (gh.Client 0)) <> None ->
        isDefaultBranch = false)
    /\ (snd (DetectCurrentPullRequestNumber detached_world (gh.Client 0) "k1LoW" "octocov")
        <> None -> isPullRequest = false)
    /\ last (snd (CheckIf detached_world reference_config "!is_default_branch"))
       = Some (CallEval (formula "!is_default_branch") vars)
    /\ fst (fst (CheckIf detached_world reference_config "!is_default_branch"))
       = result_of_Eval (expr_Eval detached_world (formula "!is_default_branch") vars).
Proof.
  refine (detection_errors_degrade detached_world reference_config "!is_default_branch"
            {| gh.Name := "push"; gh.Payload := VNil |}
            {| gh.Owner := "k1LoW"; gh.Repo := "octocov" |} (gh.Client 0) "main" _ _ _ _ _ _);
    try discriminate; try reflexivity.
  right. split; reflexivity.
Defined.

(** C3: on a non-empty condition [CheckIf] evaluates nothing but the formula
    ["(" ++ cond ++ ") == true"], and it returns [(true, nil)] only when that
    formula evaluates to the boolean [true].  So, with an evaluator for which
    ["(1) == true"] is an error or [false], the condition ["1"] does not
    pass: [CheckIf] returns [false], with or without an error. *)
Theorem gate_compares_with_true (w : World) (c : Config) (cond : string) :
  cond <> "" ->
  (forall input vars,
      In (CallEval input vars) (snd (CheckIf w c cond)) ->
      input = "(" ++ cond ++ ") == true")
  /\ (fst (fst (CheckIf w c cond)) = Return true None ->
      exists vars,
        In (CallEval ("(" ++ cond ++ ") == true") vars) (snd (CheckIf w c cond))
        /\ expr_Eval w ("(" ++ cond ++ ") == true") vars = (VBool true, None))
  /\ (cond = "1" ->
      (forall vars,
          snd (expr_Eval w "(1) == true" vars) <> None
          \/ expr_Eval w "(1) == true" vars = (VBool false, None)) ->
      exists err, fst (fst (CheckIf w c cond)) = Return false err).
Proof.
  intros N.
  destruct (GateFacts.CheckIf_cases w c cond N)
    as [(x & c' & E & F) | (vs & c' & pre & E & F)].
  - split; [|split].
    + intros input vars I. rewrite forallb_forall in F. apply F in I. discriminate I.
    + intros T. rewrite E in T. discriminate T.
    + intros _ _. exists (Some x). now rewrite E.
  - rewrite E. cbn [fst snd]. split; [|split].
    + intros input vars I. apply in_app_or in I as [I | [I | []]].
      * rewrite forallb_forall in F. apply F in I. discriminate I.
      * now injection I.
    + intros T. exists vs. split.
      * apply in_or_app. right. now left.
      * change ("(" ++ cond ++ ") == true") with (formula cond).
        destruct (expr_Eval w (formula cond) vs) as [[| [] | | | | |] [y|]];
          cbn in T; try discriminate T; reflexivity.
    + intros -> H. destruct (H vs) as [H1 | H1].
      * change (formula "1") with "(1) == true".
        destruct (expr_Eval w "(1) == true" vs) as [v [y|]]; [|now destruct H1].
        now exists (Some y).
      * change (formula "1") with "(1) == true". rewrite H1. now exists None.
Qed.

(** C3 with the reference evaluator: ["1"] does not pass. *)
Lemma gate_compares_with_true_witness :
  exists err, fst (fst (CheckIf detached_world reference_config "1")) = Return false err.
Proof.
  refine (proj2 (proj2 (gate_compares_with_true detached_world reference_config "1" _))
            eq_refl _).
  - discriminate.
  - intros vars. right. reflexivity.
Defined.

(** C10 fails on the code: with the reference evaluator, the condition
    ["true) ? 1 : (2"] gives the formula ["(true) ? 1 : (2) == true"], a
    conditional whose value is the integer 1, and the type assertion
    [ok.(bool)] panics. *)
Theorem CheckIf_panics_on_conditional :
  formula "true) ? 1 : (2" = "(true) ? 1 : (2) == true"
  /\ expr.Parse "(true) ? 1 : (2) == true"
     = expr.Ok (expr.ConditionalNode (expr.BoolNode true) (expr.IntegerNode 1)
                  (expr.BinaryNode "==" (expr.IntegerNode 2) (expr.BoolNode true)))
  /\ fst (fst (CheckIf detached_world reference_config "true) ? 1 : (2")) = Panic (VInt 1).
Proof. repeat split; vm_compute; reflexivity. Qed.

(** * Further facts *)

(** ** Thresholds and colours are monotone *)

Module OrderFacts.

Import Float64Order.

Lemma leb_ltb_trans (x y z : float) :
  (x <=? y)%float = true -> (y <? z)%float = true -> (x <? z)%float = true.
Proof.
  rewrite Float64Facts.leb_key, !Float64Facts.ltb_key.
  intros (a & b & Ha & Hb & L1) (b' & c & Hb' & Hc & L2).
  assert (b' = b) by congruence; subst b'.
  exists a, c. repeat split; try assumption.
  destruct a as [[a1 a2] a3], b as [[b1 b2] b3], c as [[c1 c2] c3]; cbn in *; lia.
Qed.

Lemma ltb_leb_trans (x y z : float) :
  (x <? y)%float = true -> (y <=? z)%float = true -> (x <? z)%float = true.
Proof.
  rewrite Float64Facts.leb_key, !Float64Facts.ltb_key.
  intros (a & b & Ha & Hb & L1) (b' & c & Hb' & Hc & L2).
  assert (b' = b) by congruence; subst b'.
  exists a, c. repeat split; try assumption.
  destruct a as [[a1 a2] a3], b as [[b1 b2] b3], c as [[c1 c2] c3]; cbn in *; lia.
Qed.

(** A value at least as large is not below what a value is not below. *)
Lemma not_below_mono (v v' a : float) :
  (v <=? v')%float = true -> (v <? a)%float = false -> (v' <? a)%float = false.
Proof.
  intros L N. destruct (v' <? a)%float eqn:E; [|reflexivity].
  now rewrite (leb_ltb_trans v v' a L E) in N.
Qed.

Lemma not_above_mono (t t' f : float) :
  (t' <=? t)%float = true -> Float64.gtb t f = false -> Float64.gtb t' f = false.
Proof.
  unfold Float64.gtb. intros L N. destruct (f <? t')%float eqn:E; [|reflexivity].
  now rewrite (ltb_leb_trans f t' t E L) in N.
Qed.

Lemma geb_up (v v' t : float) :
  (v <=? v')%float = true -> Float64.geb v t = true -> Float64.geb v' t = true.
Proof. unfold Float64.geb. intros L H. exact (Float64Facts.leb_trans t v v' H L). Qed.

Lemma geb_nan (a t : float) : Float64.is_nan a = true -> Float64.geb a t = false.
Proof.
  intros N. unfold Float64.geb. destruct (t <=? a)%float eqn:E; [|reflexivity].
  apply Float64Facts.leb_not_nan in E as [_ E]. congruence.
Qed.

(** The ladder of [CoverageColor] and [CodeToTestRatioColor]: the rank of
    the colour does not go down when the value goes up. *)
Lemma ladder_mono (t1 t2 t3 t4 v v' : float) :
  (v <=? v')%float = true ->
  (tier (if Float64.geb v t1 then green
         else if Float64.geb v t2 then yellowgreen
         else if Float64.geb v t3 then yellow
         else if Float64.geb v t4 then orange else red)
   <= tier (if Float64.geb v' t1 then green
            else if Float64.geb v' t2 then yellowgreen
            else if Float64.geb v' t3 then yellow
            else if Float64.geb v' t4 then orange else red))%nat.
Proof.
  intros L. pose proof (fun t => geb_up v v' t L) as U.
  generalize (U t1), (U t2), (U t3), (U t4).
  destruct (Float64.geb v t1), (Float64.geb v t2), (Float64.geb v t3),
           (Float64.geb v t4), (Float64.geb v' t1), (Float64.geb v' t2),
           (Float64.geb v' t3), (Float64.geb v' t4);
    intros U1 U2 U3 U4; cbn; try lia;
    (specialize (U1 eq_refl) || specialize (U2 eq_refl)
     || specialize (U3 eq_refl) || specialize (U4 eq_refl)); discriminate.
Qed.

(** What passes a threshold [a] has a colour at least as good as [a]. *)
Lemma ladder_accepted (t1 t2 t3 t4 v a : float) :
  Float64.is_nan v = false -> (v <? a)%float = false ->
  (tier (if Float64.geb a t1 then green
         else if Float64.geb a t2 then yellowgreen
         else if Float64.geb a t3 then yellow
         else if Float64.geb a t4 then orange else red)
   <= tier (if Float64.geb v t1 then green
            else if Float64.geb v t2 then yellowgreen
            else if Float64.geb v t3 then yellow
            else if Float64.geb v t4 then orange else red))%nat.
Proof.
  intros V B. destruct (Float64.is_nan a) eqn:A.
  - rewrite !(geb_nan a _ A). cbn. lia.
  - apply ladder_mono. now apply Float64Facts.ltb_false_leb.
Qed.

End OrderFacts.

Section MonotoneFacts.

Variable ParseFloat : string -> float * option error.
Variable duration_Parse : string -> time.Duration * option error.
Variable Duration_of_float64 : float -> time.Duration.

(** X1: the checks are monotone in the value, for every threshold string
    and every parser: a coverage or ratio at least as high as one that
    passes also passes, and an elapsed time at most as long as one that
    passes also passes. *)
Theorem acceptable_monotone (cond : string) (v v' : float) :
  (v <=? v')%float = true ->
  (coverageAcceptable ParseFloat v cond = None ->
   coverageAcceptable ParseFloat v' cond = None)
  /\ (codeToTestRatioAcceptable ParseFloat v cond = None ->
      codeToTestRatioAcceptable ParseFloat v' cond = None)
  /\ (testExecutionTimeAcceptable duration_Parse Duration_of_float64 v' cond = None ->
      testExecutionTimeAcceptable duration_Parse Duration_of_float64 v cond = None).
Proof.
  intros L. unfold coverageAcceptable, codeToTestRatioAcceptable, testExecutionTimeAcceptable.
  destruct (String.eqb cond ""); [repeat split|].
  split; [|split].
  - destruct (ParseFloat (strings.TrimSuffix cond "%")) as [a [e|]]; [discriminate|].
    destruct (v <? a)%float eqn:E; [discriminate|].
    now rewrite (OrderFacts.not_below_mono v v' a L E).
  - destruct (ParseFloat (strings.TrimPrefix cond "1:")) as [a [e|]]; [discriminate|].
    destruct (v <? a)%float eqn:E; [discriminate|].
    now rewrite (OrderFacts.not_below_mono v v' a L E).
  - destruct (duration_Parse cond) as [d [e|]]; [discriminate|].
    destruct (Float64.gtb v' (Float64.of_int d)) eqn:E; [discriminate|].
    now rewrite (OrderFacts.not_above_mono v' v _ L E).
Qed.

End MonotoneFacts.

(** X1 at the reference parsers: 85 passes ["80%"], so 90 passes. *)
Lemma acceptable_monotone_witness :
  coverageAcceptable strconv.ParseFloat 90 "80%" = None.
Proof.
  refine (proj1 (acceptable_monotone strconv.ParseFloat duration.Parse
                   time.Duration_of_float64 "80%" 85 90 eq_refl) eq_refl).
Defined.

(** X2: a higher coverage or ratio never gets a worse colour, and a longer
    execution time never gets a better one. *)
Theorem colour_monotone :
  (forall v v' : float,
      (v <=? v')%float = true ->
      (tier (CoverageColor v) <= tier (CoverageColor v'))%nat
      /\ (tier (CodeToTestRatioColor v) <= tier (CodeToTestRatioColor v'))%nat)
  /\ (forall d d' : time.Duration,
      d <= d' ->
      (tier (TestExecutionTimeColor d') <= tier (TestExecutionTimeColor d))%nat).
Proof.
  split.
  - intros v v' L. split; apply OrderFacts.ladder_mono, L.
  - intros d d' L. unfold TestExecutionTimeColor.
    change (5 * time.Minute) with 300000000000.
    change (10 * time.Minute) with 600000000000.
    change (15 * time.Minute) with 900000000000.
    change (20 * time.Minute) with 1200000000000.
    destruct (Z.ltb_spec d 300000000000), (Z.ltb_spec d 600000000000),
             (Z.ltb_spec d 900000000000), (Z.ltb_spec d 1200000000000),
             (Z.ltb_spec d' 300000000000), (Z.ltb_spec d' 600000000000),
             (Z.ltb_spec d' 900000000000), (Z.ltb_spec d' 1200000000000);
      cbn; lia.
Qed.

(** X2 on two coverages and two durations. *)
Lemma colour_monotone_witness :
  (tier (CoverageColor 59.9) <= tier (CoverageColor 60))%nat
  /\ (tier (TestExecutionTimeColor (5 * time.Minute)%Z)
      <= tier (TestExecutionTimeColor (5 * time.Minute - 1)%Z))%nat.
Proof.
  split.
  - exact (proj1 (proj1 colour_monotone 59.9%float 60%float eq_refl)).
  - apply (proj2 colour_monotone). unfold time.Minute, time.Second, time.Millisecond, time.Microsecond, time.Nanosecond. lia.
Defined.

(** X3: thresholds and colours agree.  A coverage that passes its
    threshold gets a badge colour at least as good as the threshold itself
    would, and so does a code to test ratio, whatever the parser; NaN is
    left out, which passes every threshold and is red. *)
Theorem accepted_colour (ParseFloat : string -> float * option error)
    (cond : string) (v a : float) :
  cond <> "" ->
  Float64.is_nan v = false ->
  (ParseFloat (strings.TrimSuffix cond "%") = (a, None) ->
   coverageAcceptable ParseFloat v cond = None ->
   (tier (CoverageColor a) <= tier (CoverageColor v))%nat)
  /\ (ParseFloat (strings.TrimPrefix cond "1:") = (a, None) ->
      codeToTestRatioAcceptable ParseFloat v cond = None ->
      (tier (CodeToTestRatioColor a) <= tier (CodeToTestRatioColor v))%nat).
Proof.
  intros N V. apply String.eqb_neq in N.
  unfold coverageAcceptable, codeToTestRatioAcceptable. rewrite N.
  split; intros P; rewrite P; (destruct (v <? a)%float eqn:B; [discriminate|]); intros _;
    apply OrderFacts.ladder_accepted; assumption.
Qed.

(** X3 at the reference parser: 85 passes ["80%"], and is green. *)
Lemma accepted_colour_witness :
  (tier (CoverageColor 80) <= tier (CoverageColor 85))%nat.
Proof.
  refine (proj1 (accepted_colour strconv.ParseFloat "80%" 85 80 _ eq_refl)
            eq_refl eq_refl).
  discriminate.
Defined.

(** ** The environment map *)

Module EnvMapFacts.

Import strings StringsFacts EnvFacts.

Lemma foldl_lookup_key (l : list string) (m : gmap string string) (k v : string) :
  foldl envMap_step m l !! k = Some v ->
  m !! k = Some v \/ (Contains k "=" = false /\ In (k ++ "=" ++ v) l).
Proof.
  revert m. induction l as [|kv l IH]; intros m H; [now left|].
  cbn [foldl] in H. apply IH in H as [H | [C H]]; [|right; split; [exact C | now right]].
  destruct (envMap_step_cases m kv) as [E | (k' & v' & -> & C' & E)]; rewrite E in H.
  - now left.
  - destruct (decide (k' = k)) as [->|Nk].
    + rewrite lookup_insert_eq in H. injection H as ->. right. split; [exact C' | now left].
    + rewrite lookup_insert_ne in H by exact Nk. now left.
Qed.

Lemma lookup_key (l : list string) (k v : string) :
  envMap l !! k = Some v -> Contains k "=" = false /\ In (k ++ "=" ++ v) l.
Proof.
  intros H. apply foldl_lookup_key in H as [H | H]; [|exact H].
  rewrite lookup_empty in H. discriminate.
Qed.

Lemma entry_present (l : list string) (k v : string) :
  Contains k "=" = false -> In (k ++ "=" ++ v) l -> is_Some (envMap l !! k).
Proof.
  intros C I. apply in_split in I as (pre & post & ->).
  rewrite envMap_app. cbn [foldl]. rewrite (envMap_step_entry _ k v C).
  apply foldl_is_Some. rewrite lookup_insert_eq. eauto.
Qed.

Lemma skip_entry (m : gmap string string) (kv : string) :
  Contains kv "=" = false -> envMap_step m kv = m.
Proof. intros C. unfold envMap_step. now rewrite C. Qed.

Lemma entry_inj (k k' v v' : string) :
  Contains k "=" = false -> Contains k' "=" = false ->
  k ++ "=" ++ v = k' ++ "=" ++ v' -> k = k' /\ v = v'.
Proof.
  intros C C' E.
  pose proof (proj2 (SplitN2_Some (k ++ "=" ++ v) "=" k v) (conj eq_refl C)) as S1.
  pose proof (proj2 (SplitN2_Some (k' ++ "=" ++ v') "=" k' v') (conj eq_refl C')) as S2.
  rewrite E in S1. rewrite S1 in S2. now injection S2.
Qed.

End EnvMapFacts.

(** X4: the keys of the environment map contain no [=]; a key is absent
    exactly when it contains [=] or no entry of the environment is for it;
    and an entry without [=] changes nothing. *)
Theorem envMap_keys (environ : list string) (k : string) :
  (forall v, envMap environ !! k = Some v ->
             strings.Contains k "=" = false /\ In (k ++ "=" ++ v) environ)
  /\ (envMap environ !! k = None <->
      strings.Contains k "=" = true \/ forall v, ~ In (k ++ "=" ++ v) environ)
  /\ (forall pre kv post,
         environ = (pre ++ kv :: post)%list ->
         strings.Contains kv "=" = false ->
         envMap environ = envMap (pre ++ post)).
Proof.
  split; [|split].
  - intros v. apply EnvMapFacts.lookup_key.
  - split.
    + intros N. destruct (strings.Contains k "=") eqn:C; [now left|]. right.
      intros v I. destruct (EnvMapFacts.entry_present environ k v C I) as [v' H].
      congruence.
    + intros H. destruct (envMap environ !! k) as [v|] eqn:E; [|reflexivity].
      apply EnvMapFacts.lookup_key in E as [C I].
      destruct H as [H | H]; [congruence | now destruct (H v)].
  - intros pre kv post -> C.
    rewrite !EnvFacts.envMap_app. cbn [foldl].
    now rewrite (EnvMapFacts.skip_entry _ kv C).
Qed.

(** X5: when no key has two different values in the environment, the map
    holds exactly its entries, so the order of the entries is irrelevant. *)
Theorem envMap_order_irrelevant (environ environ' : list string) :
  (forall k v v', strings.Contains k "=" = false ->
                  In (k ++ "=" ++ v) environ -> In (k ++ "=" ++ v') environ -> v = v') ->
  Permutation environ environ' ->
  (forall k v, envMap environ !! k = Some v <->
               strings.Contains k "=" = false /\ In (k ++ "=" ++ v) environ)
  /\ envMap environ' = envMap environ.
Proof.
  intros F P.
  assert (A : forall l, Permutation environ l ->
                forall k v, envMap l !! k = Some v <->
                            strings.Contains k "=" = false /\ In (k ++ "=" ++ v) environ).
  { intros l Pl k v. split.
    - intros H. apply EnvMapFacts.lookup_key in H as [C I]. split; [exact C|].
      apply (Permutation_in _ (Permutation_sym Pl) I).
    - intros [C I].
      destruct (EnvMapFacts.entry_present l k v C (Permutation_in _ Pl I)) as [v' H].
      rewrite H. f_equal.
      apply EnvMapFacts.lookup_key in H as [_ I'].
      apply (F k v' v C); [apply (Permutation_in _ (Permutation_sym Pl) I') | exact I]. }
  split; [apply A; reflexivity|].
  apply map_eq. intros k.
  destruct (envMap environ !! k) as [v|] eqn:E.
  - apply (A environ' P). now apply (A environ (Permutation_refl _)).
  - destruct (envMap environ' !! k) as [v|] eqn:E'; [|reflexivity].
    apply (A environ' P) in E'. apply (A environ (Permutation_refl _)) in E'. congruence.
Qed.

(** X5 on an environment of two variables, swapped. *)
Lemma envMap_order_irrelevant_witness :
  envMap ["HOME=/root"; "CI=true"] = envMap ["CI=true"; "HOME=/root"].
Proof.
  refine (proj2 (envMap_order_irrelevant ["CI=true"; "HOME=/root"] ["HOME=/root"; "CI=true"]
                   _ (perm_swap _ _ _))).
  assert (E : forall k v k0 v0 : string,
             strings.Contains k "=" = false -> strings.Contains k0 "=" = false ->
             (k0 ++ "=" ++ v0 = k ++ "=" ++ v)%string -> k0 = k /\ v0 = v).
  { intros k v k0 v0 C C0 H. exact (EnvMapFacts.entry_inj k0 k v0 v C0 C H). }
  intros k v v' C [I | [I | []]] [I' | [I' | []]];
    first [ apply (E k v "CI" "true" C eq_refl) in I
          | apply (E k v "HOME" "/root" C eq_refl) in I ];
    first [ apply (E k v' "CI" "true" C eq_refl) in I'
          | apply (E k v' "HOME" "/root" C eq_refl) in I' ];
    destruct I as [K V], I' as [K' V']; congruence.
Defined.

(** ** The gate: errors, the cached client and the order of calls *)

Module GateRun.

(** Runs [CheckIf] through the answers of the world in the context. *)
Ltac run :=
  unfold CheckIf, CheckIf_body, bind, perform, exit, pure, get_Repository, get_gh, set_gh;
  repeat (cbn -[variables formula envMap String.eqb];
          match goal with
          | H : ?a = _ |- context [?a] => rewrite H
          end);
  cbn -[variables formula envMap String.eqb].

(** Splits on the answers of the world that [CheckIf] reads, up to the
    evaluation, and runs it in each case. *)
Ltac cases w c cond :=
  destruct c as [?r [?g|]];
  [|destruct (gh_New w) as [?g [?x|]] eqn:?];
  (destruct (String.eqb cond "") eqn:?);
  (destruct (DecodeGitHubEvent w) as [?e [?x|]] eqn:?);
  (destruct (String.eqb r "") eqn:?);
  (destruct (gh_Parse w r) as [?repo [?x|]] eqn:?);
  cbn [Repository gh fst snd] in *;
  match goal with
  | g : gh.Gh, repo : gh.Repository |- _ =>
      destruct (GetDefaultBranch w g (gh.Owner repo) (gh.Repo repo)) as [?db [?x|]] eqn:?;
      destruct (DetectCurrentBranch w g) as [?b [?x|]] eqn:?;
      destruct (DetectCurrentPullRequestNumber w g (gh.Owner repo) (gh.Repo repo))
        as [?n [?x|]] eqn:?
  | _ => idtac
  end;
  run.

Lemma keeps_client (w : World) (c : Config) (cond : string) :
  gh c <> None ->
  snd (fst (CheckIf w c cond)) = c /\ ~ In CallNew (snd (CheckIf w c cond)).
Proof.
  intros G. cases w c cond; try (now destruct G);
    (split; [reflexivity | cbn; intuition discriminate]).
Qed.

End GateRun.

(** X6: the errors that stop [CheckIf] on a non-empty condition, in the
    order they are looked for, each returned as it is with [false]: an
    event that does not decode (before the repository is looked at), an
    empty repository, a repository that does not parse, a client that
    cannot be made, a default branch that cannot be found.  No later call
    is made; the receiver is left as it was, except that a client just made
    is kept when the lookup of the default branch fails. *)
Theorem CheckIf_fatal_errors (w : World) (c : Config) (cond : string) :
  cond <> "" ->
  (forall e x, DecodeGitHubEvent w = (e, Some x) ->
     CheckIf w c cond = (Return false (Some x), c, [CallDecodeGitHubEvent]))
  /\ (forall e, DecodeGitHubEvent w = (e, None) ->
      (Repository c = "" ->
         CheckIf w c cond
         = (Return false (Some (Errorf "env GITHUB_REPOSITORY is not set")), c,
            [CallDecodeGitHubEvent]))
      /\ (Repository c <> "" ->
          (forall repo x, gh_Parse w (Repository c) = (repo, Some x) ->
             CheckIf w c cond
             = (Return false (Some x), c, [CallDecodeGitHubEvent; CallParse (Repository c)]))
          /\ (forall repo, gh_Parse w (Repository c) = (repo, None) ->
              (forall g x, gh c = None -> gh_New w = (g, Some x) ->
                 CheckIf w c cond
                 = (Return false (Some x), c,
                    [CallDecodeGitHubEvent; CallParse (Repository c); CallNew]))
              /\ (forall g db x, gh c = None -> gh_New w = (g, None) ->
                  GetDefaultBranch w g (gh.Owner repo) (gh.Repo repo) = (db, Some x) ->
                  CheckIf w c cond
                  = (Return false (Some x), {| Repository := Repository c; gh := Some g |},
                     [CallDecodeGitHubEvent; CallParse (Repository c); CallNew;
                      CallGetDefaultBranch g (gh.Owner repo) (gh.Repo repo)]))
              /\ (forall g db x, gh c = Some g ->
                  GetDefaultBranch w g (gh.Owner repo) (gh.Repo repo) = (db, Some x) ->
                  CheckIf w c cond
                  = (Return false (Some x), c,
                     [CallDecodeGitHubEvent; CallParse (Repository c);
                      CallGetDefaultBranch g (gh.Owner repo) (gh.Repo repo)]))))).
Proof.
  intros N. apply String.eqb_neq in N. destruct c as [r cg]. cbn [Repository gh].
  split; [intros e x D; GateRun.run; reflexivity|].
  intros e D. split; [intros ->; GateRun.run; reflexivity|].
  intros R. apply String.eqb_neq in R.
  split; [intros repo x P; GateRun.run; reflexivity|].
  intros repo P. split; [|split].
  - intros g x -> G. GateRun.run. reflexivity.
  - intros g db x -> G B. GateRun.run. reflexivity.
  - intros g db x -> B. GateRun.run. reflexivity.
Qed.

(** X6 where the API cannot be reached: the error of the lookup is
    returned and the client made for it is kept. *)
Lemma CheckIf_fatal_errors_witness :
  CheckIf unreachable_world reference_config "is_default_branch"
  = (Return false (Some (ForeignError "gh" "connection refused")),
     {| Repository := "k1LoW/octocov"; gh := Some (gh.Client 0) |},
     [CallDecodeGitHubEvent; CallParse "k1LoW/octocov"; CallNew;
      CallGetDefaultBranch (gh.Client 0) "k1LoW" "octocov"]).
Proof.
  refine (proj1 (proj2 (proj2 (proj2 (proj2
            (CheckIf_fatal_errors unreachable_world reference_config "is_default_branch" _)
            _ eq_refl) _) _ eq_refl)) _ _ _ eq_refl eq_refl eq_refl);
    discriminate.
Defined.

(** X7: the GitHub client is made on demand and kept on the receiver.
    [CheckIf] never changes [Repository]; with a client already there it
    leaves the receiver as it was and never calls [gh.New]; without one,
    the receiver holds a client afterwards exactly when [gh.New] was called
    and succeeded, and it is the client returned.  So whatever a later
    [CheckIf] on the same receiver is asked, in whatever world, it makes no
    second client. *)
Theorem client_made_once (w : World) (c : Config) (cond : string) :
  let c' := snd (fst (CheckIf w c cond)) in
  let calls := snd (CheckIf w c cond) in
  Repository c' = Repository c
  /\ (gh c <> None -> c' = c /\ ~ In CallNew calls)
  /\ (gh c = None ->
      forall g, gh c' = Some g <-> In CallNew calls /\ gh_New w = (g, None))
  /\ (forall w' cond',
      gh c' <> None ->
      snd (fst (CheckIf w' c' cond')) = c' /\ ~ In CallNew (snd (CheckIf w' c' cond'))).
Proof.
  cbv zeta. split; [|split; [|split]].
  - GateRun.cases w c cond; reflexivity.
  - apply GateRun.keeps_client.
  - intros G g'. GateRun.cases w c cond; try discriminate;
      cbn; split; try (intros [I E]); try discriminate; try congruence;
      try (intuition discriminate);
      try (intros E; injection E as <-; split; [tauto | reflexivity]).
  - intros w' cond'. apply GateRun.keeps_client.
Qed.

(** X8: the calls of [CheckIf] are always an initial part of one sequence:
    the event, the repository, the client if there is none yet, the default
    branch, the current branch, the pull request, the clock, the
    environment, the evaluation.  No call is made twice or out of this
    order, every lookup uses the receiver's client (or the one just made)
    and the parsed repository, and no call at all is made exactly on the
    empty condition. *)
Theorem CheckIf_call_order (w : World) (c : Config) (cond : string) :
  let g := match gh c with Some g => g | None => fst (gh_New w) end in
  let repo := fst (gh_Parse w (Repository c)) in
  let defaultBranch := fst (GetDefaultBranch w g (gh.Owner repo) (gh.Repo repo)) in
  let vars :=
    variables (time_Now w) (fst (DecodeGitHubEvent w)) (envMap (os_Environ w))
      (isDefaultBranch_of (DetectCurrentBranch w g) defaultBranch)
      (isPullRequest_of (DetectCurrentPullRequestNumber w g (gh.Owner repo) (gh.Repo repo))) in
  exists n : nat,
    snd (CheckIf w c cond) = firstn n (assembly_calls c cond g repo vars)
    /\ (n = 0%nat <-> cond = "").
Proof.
  cbv zeta.
  GateRun.cases w c cond;
    match goal with
    | H : String.eqb cond "" = true |- _ =>
        apply String.eqb_eq in H; exists 0%nat; split; [reflexivity | tauto]
    | H : String.eqb cond "" = false |- _ => apply String.eqb_neq in H
    end;
    try discriminate; try destruct (String.eqb b db);
    first [ exists 1%nat; split; [reflexivity | split; [discriminate | tauto]]
          | exists 2%nat; split; [reflexivity | split; [discriminate | tauto]]
          | exists 3%nat; split; [reflexivity | split; [discriminate | tauto]]
          | exists 4%nat; split; [reflexivity | split; [discriminate | tauto]]
          | exists 8%nat; split; [reflexivity | split; [discriminate | tauto]]
          | exists 9%nat; split; [reflexivity | split; [discriminate | tauto]] ].
Qed.

(** X9: when [CheckIf] reaches the evaluation, [is_default_branch] is true
    exactly when the current branch was detected without error and is the
    default branch, and [is_pull_request] is true exactly when a pull
    request number was detected without error. *)
Theorem gate_flags (w : World) (c : Config) (cond : string)
    (e : gh.GitHubEvent) (repo : gh.Repository) (g : gh.Gh) (defaultBranch : string) :
  cond <> "" ->
  DecodeGitHubEvent w = (e, None) ->
  Repository c <> "" ->
  gh_Parse w (Repository c) = (repo, None) ->
  gh c = Some g \/ (gh c = None /\ gh_New w = (g, None)) ->
  GetDefaultBranch w g (gh.Owner repo) (gh.Repo repo) = (defaultBranch, None) ->
  exists vars : gmap string value,
    last (snd (CheckIf w c cond)) = Some (CallEval (formula cond) vars)
    /\ (vars !! "is_default_branch" = Some (VBool true) <->
        DetectCurrentBranch w g = (defaultBranch, None))
    /\ (vars !! "is_pull_request" = Some (VBool true) <->
        snd (DetectCurrentPullRequestNumber w g (gh.Owner repo) (gh.Repo repo)) = None).
Proof.
  intros N D R P G B.
  destruct (GateFacts.CheckIf_assembled w c cond e repo g defaultBranch N D R P G B)
    as (pre & E & _).
  eexists. rewrite E. cbn [fst snd]. rewrite last_snoc.
  split; [reflexivity|].
  change (variables ?n ?ev ?env ?d ?p !! "is_default_branch") with (Some (VBool d)).
  change (variables ?n ?ev ?env ?d ?p !! "is_pull_request") with (Some (VBool p)).
  split.
  - destruct (DetectCurrentBranch w g) as [b [x|]]; cbn [isDefaultBranch_of].
    + split; [discriminate | congruence].
    + destruct (String.eqb_spec b defaultBranch) as [->|Nb]; split; congruence.
  - destruct (DetectCurrentPullRequestNumber w g _ _) as [n [x|]]; cbn; split; congruence.
Qed.

(** X9 on the default branch, in a pull request. *)
Lemma gate_flags_witness :
  exists vars : gmap string value,
    last (snd (CheckIf (reference_world ("main", None) (7, None) []) reference_config
                 "is_default_branch"))
    = Some (CallEval (formula "is_default_branch") vars)
    /\ vars !! "is_default_branch" = Some (VBool true)
    /\ vars !! "is_pull_request" = Some (VBool true).
Proof.
  destruct (gate_flags (reference_world ("main", None) (7, None) []) reference_config
              "is_default_branch" {| gh.Name := "push"; gh.Payload := VNil |}
              {| gh.Owner := "k1LoW"; gh.Repo := "octocov" |} (gh.Client 0) "main")
    as (vars & L & D & P);
    [discriminate | reflexivity | discriminate | reflexivity
    | right; split; reflexivity | reflexivity |].
  exists vars. split; [exact L|]. split; [apply D | apply P]; reflexivity.
Defined.

(** ** [Acceptable]: the three checks together *)

Section AcceptableAllFacts.

Variable ParseFloat : string -> float * option error.
Variable duration_Parse : string -> time.Duration * option error.
Variable Duration_of_float64 : float -> time.Duration.
Variable Report : Type.
Variable CoveragePercent CodeToTestRatioRatio TestExecutionTimeNano : Report -> float.
Variable CoverageConfigReady CodeToTestRatioConfigReady TestExecutionTimeConfigReady :
  ConfigSections -> option error.

#[local, warnings="-notation-for-abbreviation"]
Notation Acceptable' :=
  (Acceptable ParseFloat duration_Parse Duration_of_float64 Report
     CoveragePercent CodeToTestRatioRatio TestExecutionTimeNano
     CoverageConfigReady CodeToTestRatioConfigReady TestExecutionTimeConfigReady).

(** What the checks of the three sections give on a report, for a section
    that is there. *)
#[local, warnings="-notation-for-abbreviation"]
Notation coverage r :=
  (fun s => coverageAcceptable ParseFloat (CoveragePercent r) (ConfigCoverage.Acceptable s)).
#[local, warnings="-notation-for-abbreviation"]
Notation ratio r :=
  (fun s => codeToTestRatioAcceptable ParseFloat (CodeToTestRatioRatio r)
              (ConfigCodeToTestRatio.Acceptable s)).
#[local, warnings="-notation-for-abbreviation"]
Notation elapsed r :=
  (fun s => testExecutionTimeAcceptable duration_Parse Duration_of_float64
              (TestExecutionTimeNano r) (ConfigTestExecutionTime.Acceptable s)).
#[local, warnings="-notation-for-abbreviation"]
Notation passes := metric_passes.
#[local, warnings="-notation-for-abbreviation"]
Notation fails := metric_fails.

Lemma block_passes {S : Type} (ready : option error) (section : option S)
    (check : S -> option error) :
  acceptable_block ready section check = Returned None <-> passes ready section check.
Proof.
  unfold acceptable_block, metric_passes. destruct ready as [x|]; [split; [now left | reflexivity]|].
  destruct section as [s|].
  - split.
    + intros H. right. exists s. split; [reflexivity | congruence].
    + intros [H | (s' & E & H)]; [now destruct H|]. congruence.
  - split; [discriminate|]. intros [H | (s' & E & H)]; [now destruct H | discriminate].
Qed.

Lemma block_fails {S : Type} (ready : option error) (section : option S)
    (check : S -> option error) (e : error) :
  acceptable_block ready section check = Returned (Some e) <-> fails ready section check e.
Proof.
  unfold acceptable_block, metric_fails. destruct ready as [x|].
  { split; [discriminate | now intros [H _]]. }
  destruct section as [s|].
  - split.
    + intros H. split; [reflexivity|]. exists s. split; [reflexivity | congruence].
    + intros (_ & s' & E & H). congruence.
  - split; [discriminate|]. intros (_ & s' & E & H). discriminate.
Qed.

(** X10: [Acceptable] returns nil exactly when each of the three metrics is
    either not ready or passes its own threshold; the previous report is
    never looked at; and when every ready section is there, the call does
    not panic. *)
Theorem Acceptable_passes (c : ConfigSections) (r rPrev : Report) :
  (Acceptable' c r rPrev = Returned None <->
   passes (CoverageConfigReady c) (Coverage c) (coverage r)
   /\ passes (CodeToTestRatioConfigReady c) (CodeToTestRatio c) (ratio r)
   /\ passes (TestExecutionTimeConfigReady c) (TestExecutionTime c) (elapsed r))
  /\ (forall rPrev', Acceptable' c r rPrev' = Acceptable' c r rPrev)
  /\ ((CoverageConfigReady c = None -> Coverage c <> None) ->
      (CodeToTestRatioConfigReady c = None -> CodeToTestRatio c <> None) ->
      (TestExecutionTimeConfigReady c = None -> TestExecutionTime c <> None) ->
      Acceptable' c r rPrev <> NilDereference).
Proof.
  split; [|split; [reflexivity|]].
  - rewrite <- !block_passes. unfold Acceptable.
    destruct (acceptable_block (CoverageConfigReady c) _ _) as [[e|]|];
      [intuition discriminate | | intuition discriminate].
    destruct (acceptable_block (CodeToTestRatioConfigReady c) _ _) as [[e|]|];
      [intuition discriminate | | intuition discriminate].
    tauto.
  - intros H1 H2 H3. unfold Acceptable, acceptable_block.
    destruct (CoverageConfigReady c), (Coverage c),
             (CodeToTestRatioConfigReady c), (CodeToTestRatio c),
             (TestExecutionTimeConfigReady c), (TestExecutionTime c);
      try (now destruct H1); try (now destruct H2); try (now destruct H3);
      repeat match goal with |- context [match ?x with _ => _ end] => destruct x end;
      discriminate.
Qed.

(** X11: [Acceptable] returns the error of the first metric that fails, in
    the order coverage, code to test ratio, test execution time: an error
    is returned exactly when a ready metric fails with it and every metric
    before it is not ready or passes. *)
Theorem Acceptable_first_failure (c : ConfigSections) (r rPrev : Report) (e : error) :
  Acceptable' c r rPrev = Returned (Some e) <->
  fails (CoverageConfigReady c) (Coverage c) (coverage r) e
  \/ (passes (CoverageConfigReady c) (Coverage c) (coverage r)
      /\ fails (CodeToTestRatioConfigReady c) (CodeToTestRatio c) (ratio r) e)
  \/ (passes (CoverageConfigReady c) (Coverage c) (coverage r)
      /\ passes (CodeToTestRatioConfigReady c) (CodeToTestRatio c) (ratio r)
      /\ fails (TestExecutionTimeConfigReady c) (TestExecutionTime c) (elapsed r) e).
Proof.
  rewrite <- !block_passes, <- !block_fails.
  unfold Acceptable.
  destruct (acceptable_block (CoverageConfigReady c) _ _) as [[e1|]|].
  - split; [now left|]. intros [H | [[H _] | [H _]]]; [exact H | discriminate..].
  - destruct (acceptable_block (CodeToTestRatioConfigReady c) _ _) as [[e2|]|].
    + split; [right; left; now split|].
      intros [H | [[_ H] | (_ & H & _)]]; [discriminate | exact H | discriminate].
    + split; [right; right; now repeat split|].
      intros [H | [[_ H] | (_ & _ & H)]]; [discriminate | discriminate | exact H].
    + split; [discriminate|].
      intros [H | [[_ H] | (_ & H & _)]]; discriminate.
  - split; [discriminate|]. intros [H | [[H _] | [H _]]]; discriminate.
Qed.

End AcceptableAllFacts.

(** ** [Load] and the root directory *)

Section LoadFacts.

Variable Exported : Type.
Variable Join : string -> string -> string.
Variable Clean Dir : string -> string.
Variable Stat : string -> bool * option error.
Variable ReadFile : string -> string * option error.
Variable ExpandenvYAMLBytes : string -> string.
Variable Unmarshal : string -> Exported -> Exported * option error.

#[local, warnings="-notation-for-abbreviation"]
Notation Load' := (Load Exported Join Clean Stat ReadFile ExpandenvYAMLBytes Unmarshal).
#[local, warnings="-notation-for-abbreviation"]
Notation Root' := (Root Exported Dir).

Lemma Load_named (c : FileConfig Exported) (name : string) :
  name <> "" ->
  Load' c name =
  let file := Join (wd c) name in
  let c1 := {| exported := exported c; wd := wd c; path := file |} in
  match ReadFile (Clean file) with
  | (buf, Some e) => (Some e, c1, [CallReadFile (Clean file)])
  | (buf, None) =>
      (snd (Unmarshal (ExpandenvYAMLBytes buf) (exported c)),
       {| exported := fst (Unmarshal (ExpandenvYAMLBytes buf) (exported c));
          wd := wd c; path := file |},
       [CallReadFile (Clean file)])
  end.
Proof.
  intros N. apply String.eqb_neq in N. unfold Load. rewrite N. cbn zeta. rewrite N.
  cbn [path exported wd].
  destruct (ReadFile (Clean (Join (wd c) name))) as [buf [e|]]; [reflexivity|].
  cbn [app]. now destruct (Unmarshal (ExpandenvYAMLBytes buf) (exported c)) as [ex err].
Qed.

(** X12: without a file name, [Load] looks at both default names in the
    working directory, whatever the first look finds.  With no regular
    file under either name it returns nil and leaves the receiver as it
    was, not loaded; with a regular file under both it returns the
    duplicate error naming both, reads nothing and leaves the receiver as
    it was; with a regular file under exactly one it goes on as [Load] of
    that name does.  A directory, or a name that [os.Stat] fails on, counts
    as no file. *)
Theorem Load_discovers (c : FileConfig Exported) :
  let first := Join (wd c) ".octocov.yml" in
  let second := Join (wd c) "octocov.yml" in
  let looks := [CallStat first; CallStat second] in
  let after (name : string) :=
    (fst (Load' c name), (looks ++ snd (Load' c name))%list) in
  (regular (Stat first) = false -> regular (Stat second) = false ->
   Load' c "" = (None, c, looks))
  /\ (regular (Stat first) = true -> regular (Stat second) = true ->
      Load' c ""
      = (Some (Errorf "duplicate config file [.octocov.yml, octocov.yml]"), c, looks))
  /\ (regular (Stat first) = true -> regular (Stat second) = false ->
      Load' c "" = after ".octocov.yml")
  /\ (regular (Stat first) = false -> regular (Stat second) = true ->
      Load' c "" = after "octocov.yml").
Proof.
  cbv beta zeta.
  assert (N1 : ".octocov.yml" <> "") by discriminate.
  assert (N2 : "octocov.yml" <> "") by discriminate.
  rewrite (Load_named c _ N1), (Load_named c _ N2). cbv zeta.
  unfold Load, DefaultConfigFilePaths, discover, regular.
  change (String.eqb "" "") with true. cbn match.
  destruct (Stat (Join (wd c) ".octocov.yml")) as [[|] [x|]],
           (Stat (Join (wd c) "octocov.yml")) as [[|] [y|]];
    cbn -[String.append]; (split; [|split; [|split]]); intros A B; try discriminate;
    try reflexivity;
    cbn [path exported wd];
    match goal with
    | |- context [ReadFile ?f] => destruct (ReadFile f) as [buf [e|]]; try reflexivity
    end;
    now destruct (Unmarshal (ExpandenvYAMLBytes buf) (exported c)) as [ex err].
Qed.

(** X13: with a file name, [Load] looks for nothing and reads once, the
    file of that name under the working directory.  The path of the file is
    recorded before it is read: whether reading and decoding succeed or
    not, the working directory is kept and the receiver counts as loaded
    afterwards, with the directory of the file as its root.  A read error
    is returned as it is and leaves the exported fields alone; otherwise
    the error and the exported fields are those of the YAML decoding of the
    expanded text. *)
Theorem Load_explicit (c : FileConfig Exported) (name : string) :
  name <> "" ->
  let file := Join (wd c) name in
  let err := fst (fst (Load' c name)) in
  let c' := snd (fst (Load' c name)) in
  snd (Load' c name) = [CallReadFile (Clean file)]
  /\ wd c' = wd c
  /\ path c' = file
  /\ (forall buf e, ReadFile (Clean file) = (buf, Some e) ->
        err = Some e /\ exported c' = exported c)
  /\ (forall buf, ReadFile (Clean file) = (buf, None) ->
        (exported c', err) = Unmarshal (ExpandenvYAMLBytes buf) (exported c))
  /\ (file <> "" -> Loaded Exported c' = true /\ Root' c' = Dir file).
Proof.
  intros N. cbv zeta. rewrite (Load_named c name N). cbv zeta.
  destruct (ReadFile (Clean (Join (wd c) name))) as [buf [e|]]; cbn [fst snd path wd exported].
  - repeat split; try congruence.
    + unfold Loaded. cbn [path]. now apply String.eqb_neq in H as ->.
    + unfold Root. cbn [path]. now apply String.eqb_neq in H as ->.
  - repeat split; try congruence.
    + intros buf' E. injection E as <-. now destruct (Unmarshal _ _).
    + unfold Loaded. cbn [path]. now apply String.eqb_neq in H as ->.
    + unfold Root. cbn [path]. now apply String.eqb_neq in H as ->.
Qed.

(** X14: the root directory.  A new configuration is not loaded and has
    the answer of [os.Getwd] as its root, whatever error came with it; as
    long as nothing is loaded the root follows [Setwd]; a [Load] of a named
    file after [Setwd] looks under the new directory; and once a file is
    recorded, [Setwd] changes the working directory but no longer the
    root. *)
Theorem root_directory (zero : Exported) (getwd : string * option error)
    (c : FileConfig Exported) (d : string) :
  (Loaded Exported (New Exported zero getwd) = false
   /\ Root' (New Exported zero getwd) = fst getwd)
  /\ (Loaded Exported c = false -> Root' (Setwd Exported c d) = d)
  /\ (Loaded Exported c = true ->
      Root' (Setwd Exported c d) = Root' c /\ Getwd Exported (Setwd Exported c d) = d)
  /\ (forall name, name <> "" ->
        path (snd (fst (Load' (Setwd Exported c d) name))) = Join d name).
Proof.
  split; [split; reflexivity|]. unfold Loaded, Root, Setwd, Getwd. cbn [path wd].
  split; [|split].
  - intros L. now destruct (String.eqb (path c) "").
  - intros L. now destruct (String.eqb (path c) "").
  - intros name N. rewrite (Load_named _ name N). cbv zeta. cbn [wd].
    now destruct (ReadFile _) as [buf [e|]].
Qed.

End LoadFacts.

(** X13 in the reference file system: the file is read and decoded, and
    its directory is the root. *)
Lemma Load_explicit_witness :
  let c := New string "" ("/repo", None) in
  let loaded :=
    Load string reference_fs.Join reference_fs.Clean reference_fs.Stat reference_fs.ReadFile
      reference_fs.ExpandenvYAMLBytes reference_fs.Unmarshal c ".octocov.yml" in
  snd loaded = [CallReadFile "/repo/.octocov.yml"]
  /\ Root string reference_fs.Dir (snd (fst loaded)) = "/repo".
Proof.
  cbv zeta.
  pose proof (Load_explicit string reference_fs.Join reference_fs.Clean reference_fs.Dir
                reference_fs.Stat reference_fs.ReadFile reference_fs.ExpandenvYAMLBytes
                reference_fs.Unmarshal (New string "" ("/repo", None)) ".octocov.yml")
    as H.
  cbv zeta in H.
  split.
  - refine (proj1 (H _)). discriminate.
  - refine (proj2 (proj2 (proj2 (proj2 (proj2 (proj2 (H _)) ) ) ) _)); discriminate.
Defined.

(** ** The central configuration *)

Section CentralFacts.

Import central.

Variable Join : string -> string -> string.
Variable Clean Dir : string -> string.
Variable defaultReportsDir defaultBadgesDir : string.
Variable CheckIf : string -> bool * option error.

#[local, warnings="-notation-for-abbreviation"]
Notation BuildCentralConfig' :=
  (BuildCentralConfig Join Clean Dir defaultReportsDir defaultBadgesDir).
#[local, warnings="-notation-for-abbreviation"]
Notation Root' := (Root Dir).
#[local, warnings="-notation-for-abbreviation"]
Notation CentralPushConfigReady' := (CentralPushConfigReady CheckIf).

(** The three paths that [BuildCentralConfig] leaves in [c.Central]. *)
Lemma build_paths (root : string) (cc : ConfigCentral.t) :
  build Join Clean defaultReportsDir defaultBadgesDir root cc
  = {| ConfigCentral.Enable := ConfigCentral.Enable cc;
       ConfigCentral.Root :=
         if strings.HasPrefix (ConfigCentral.Root cc) "/" then ConfigCentral.Root cc
         else Clean (Join root (if String.eqb (ConfigCentral.Root cc) "" then "."
                                else ConfigCentral.Root cc));
       ConfigCentral.Reports :=
         if String.eqb (ConfigCentral.Reports cc) "" then defaultReportsDir
         else ConfigCentral.Reports cc;
       ConfigCentral.Badges :=
         (let badges := if String.eqb (ConfigCentral.Badges cc) "" then defaultBadgesDir
                        else ConfigCentral.Badges cc in
          if strings.HasPrefix badges "/" then badges else Clean (Join root badges));
       ConfigCentral.Push := ConfigCentral.Push cc |}.
Proof.
  destruct cc as [en ro re ba pu]. unfold build, set_Root, set_Reports, set_Badges.
  cbn [ConfigCentral.Root ConfigCentral.Badges ConfigCentral.Reports].
  destruct (String.eqb_spec ro "") as [->|Nr];
    [change (strings.HasPrefix "" "/") with false|];
    repeat (change (strings.HasPrefix "." "/") with false;
            cbn [negb ConfigCentral.Root ConfigCentral.Enable ConfigCentral.Reports
                 ConfigCentral.Badges ConfigCentral.Push];
            match goal with
            | |- context [if negb ?b then _ else _] =>
                lazymatch b with
                | context [if _ then _ else _] => fail
                | _ => destruct b eqn:?
                end
            | |- context [if ?b then _ else _] =>
                lazymatch b with
                | context [if _ then _ else _] => fail
                | _ => destruct b eqn:?
                end
            end);
    cbn [negb ConfigCentral.Root ConfigCentral.Enable ConfigCentral.Reports
         ConfigCentral.Badges ConfigCentral.Push];
    try match goal with H : strings.HasPrefix "." "/" = true |- _ => vm_compute in H end;
    congruence.
Qed.

(** X15: [BuildCentralConfig] fails on an empty repository, and then on a
    missing [central] section, in this order, and in both cases leaves the
    receiver as it was; otherwise it returns nil.  It only ever writes the
    three paths of [c.Central]: the repository, the top-level push section,
    the git root, the working directory, the path of the file, and whether
    the central mode is enabled and its push section are as before. *)
Theorem BuildCentralConfig_errors (c : Config) :
  let c' := snd (BuildCentralConfig' c) in
  (Repository c = "" ->
   BuildCentralConfig' c
   = (Some (Errorf "repository: not set (or env GITHUB_REPOSITORY is not set)"), c))
  /\ (Repository c <> "" -> Central c = None ->
      BuildCentralConfig' c = (Some (Errorf "central: not set"), c))
  /\ (fst (BuildCentralConfig' c) = None <-> Repository c <> "" /\ Central c <> None)
  /\ (Repository c' = Repository c /\ Push c' = Push c /\ GitRoot c' = GitRoot c
      /\ wd c' = wd c /\ path c' = path c /\ Root' c' = Root' c)
  /\ CentralConfigReady c' = CentralConfigReady c
  /\ option_map ConfigCentral.Push (Central c') = option_map ConfigCentral.Push (Central c).
Proof.
  cbv zeta. unfold BuildCentralConfig.
  destruct (String.eqb_spec (Repository c) "") as [R|R].
  { split; [reflexivity|]. split; [now intros []|].
    split; [split; [discriminate | now intros [[] _]]|]. repeat split. }
  split; [now intros|].
  destruct (Central c) as [cc|] eqn:E.
  - split; [discriminate|]. split; [split; [split; [exact R | discriminate] | reflexivity]|].
    cbn [snd]. split; [repeat split|].
    unfold CentralConfigReady. cbn [set_Central Central]. rewrite E, build_paths.
    split; reflexivity.
  - split; [reflexivity|]. split; [split; [discriminate | now intros [_ []]]|].
    cbn [snd]. rewrite E. repeat split.
Qed.

(** X16: the paths after a [BuildCentralConfig] that succeeds.  An
    absolute root is kept as it is; any other is joined to the root of the
    configuration and cleaned, [.] standing for an empty one.  The reports
    directory only gets its default when empty, and is never joined to the
    root; the badges directory gets its default when empty and is then
    joined to the root and cleaned unless absolute. *)
Theorem BuildCentralConfig_paths (c : Config) (cc : ConfigCentral.t) :
  Repository c <> "" ->
  Central c = Some cc ->
  exists cc',
    BuildCentralConfig' c = (None, set_Central c cc')
    /\ ConfigCentral.Root cc'
       = (if strings.HasPrefix (ConfigCentral.Root cc) "/" then ConfigCentral.Root cc
          else Clean (Join (Root' c) (if String.eqb (ConfigCentral.Root cc) "" then "."
                                      else ConfigCentral.Root cc)))
    /\ ConfigCentral.Reports cc'
       = (if String.eqb (ConfigCentral.Reports cc) "" then defaultReportsDir
          else ConfigCentral.Reports cc)
    /\ ConfigCentral.Badges cc'
       = (let badges := if String.eqb (ConfigCentral.Badges cc) "" then defaultBadgesDir
                        else ConfigCentral.Badges cc in
          if strings.HasPrefix badges "/" then badges else Clean (Join (Root' c) badges)).
Proof.
  intros R E. apply String.eqb_neq in R.
  exists (build Join Clean defaultReportsDir defaultBadgesDir (Root' c) cc).
  split; [unfold BuildCentralConfig; now rewrite R, E|].
  rewrite build_paths. repeat split.
Qed.

(** X17: when the root of the configuration is absolute, so that what is
    joined to it and cleaned starts with [/], building the central
    configuration a second time changes nothing and returns the same
    error. *)
Theorem BuildCentralConfig_idempotent (c : Config) :
  (forall p, strings.HasPrefix (Clean (Join (Root' c) p)) "/" = true) ->
  BuildCentralConfig' (snd (BuildCentralConfig' c)) = BuildCentralConfig' c.
Proof.
  intros A. unfold BuildCentralConfig at 2 3.
  destruct (String.eqb (Repository c) "") eqn:R.
  { cbn [snd]. unfold BuildCentralConfig. now rewrite R. }
  destruct (Central c) as [cc|] eqn:E.
  2:{ cbn [snd]. unfold BuildCentralConfig. now rewrite R, E. }
  cbn [snd]. unfold BuildCentralConfig. cbn [set_Central Repository Central]. rewrite R.
  change (Root' (set_Central c ?x)) with (Root' c).
  f_equal. unfold set_Central. cbn [Repository Push GitRoot wd path]. f_equal. f_equal.
  rewrite !build_paths. cbn [ConfigCentral.Enable ConfigCentral.Root ConfigCentral.Reports
                             ConfigCentral.Badges ConfigCentral.Push].
  assert (P : forall s, strings.HasPrefix s "/" = true -> String.eqb s "" = false).
  { intros [|a s] H; [discriminate | reflexivity]. }
  f_equal.
  - destruct (strings.HasPrefix (ConfigCentral.Root cc) "/") eqn:H.
    + now rewrite H.
    + now rewrite A.
  - destruct (String.eqb (ConfigCentral.Reports cc) "") eqn:H.
    + now destruct (String.eqb defaultReportsDir "").
    + now rewrite H.
  - cbv zeta.
    set (badges := if String.eqb (ConfigCentral.Badges cc) "" then defaultBadgesDir
                   else ConfigCentral.Badges cc).
    destruct (strings.HasPrefix badges "/") eqn:H.
    + now rewrite (P _ H), H.
    + now rewrite (P _ (A badges)), A.
Qed.

(** X18: [CentralPushConfigReady] returns true exactly when the central
    mode is enabled, its push section is enabled, the git root is known and
    the condition of the central push section holds without error.
    Nothing is written to the standard error then.  With the central mode
    missing or disabled it returns false without looking at anything else;
    with the push disabled or the git root unknown it returns false without
    evaluating the condition, which is evaluated at most once. *)
Theorem push_ready_iff (c : Config) :
  let result := fst (fst (CentralPushConfigReady' c)) in
  let stderr := snd (fst (CentralPushConfigReady' c)) in
  let asked := snd (CentralPushConfigReady' c) in
  (result = Returned true <->
   exists cc p,
     Central c = Some cc /\ ConfigCentral.Enable cc = true
     /\ ConfigCentral.Push cc = Some p /\ ConfigPush.Enable p = true
     /\ GitRoot c <> "" /\ CheckIf (ConfigPush.If p) = (true, None))
  /\ (result = Returned true -> stderr = [])
  /\ (CentralConfigReady c = false -> CentralPushConfigReady' c = (Returned false, [], []))
  /\ (forall cc p,
        Central c = Some cc -> ConfigCentral.Push cc = Some p ->
        (asked = [] \/ asked = [ConfigPush.If p])
        /\ (ConfigPush.Enable p = false \/ GitRoot c = "" -> asked = [])).
Proof.
  cbv zeta. unfold CentralPushConfigReady, CentralConfigReady.
  destruct (Central c) as [[[|] ro re ba [[[|] pi]|]]|] eqn:E;
    cbn [ConfigCentral.Enable ConfigCentral.Push ConfigPush.Enable ConfigPush.If negb orb];
    try destruct (String.eqb_spec (GitRoot c) "") as [G|G];
    try destruct (CheckIf pi) as [[|] [e|]] eqn:K;
    try destruct (Push c) as [q|];
    cbn [negb fst snd];
    (split;
     [split;
      [intros H; first [discriminate H | eexists _, _; repeat split; eassumption]
      |intros (cc & p & H1 & H2 & H3 & H4 & H5 & H6); simplify_eq/=; congruence]
     |split; [intros H; first [discriminate H | reflexivity]|];
      split; [intros H; first [discriminate H | reflexivity]|];
      intros cc p H1 H2; simplify_eq/=;
      (split; [auto | intros [H | H]; first [discriminate H | congruence | reflexivity]])]).
Qed.

(** X19: what [CentralPushConfigReady] writes when the guards pass and the
    condition of the central push section does not hold.  An error of the
    evaluation is reported by its text.  A condition that is not met is
    reported with the condition of the top-level push section, not the one
    that was evaluated, and the call panics when there is no top-level
    push section. *)
Theorem push_skip_messages (c : Config) (cc : ConfigCentral.t) (p : ConfigPush.t) :
  Central c = Some cc -> ConfigCentral.Enable cc = true ->
  ConfigCentral.Push cc = Some p -> ConfigPush.Enable p = true ->
  GitRoot c <> "" ->
  (forall ok e, CheckIf (ConfigPush.If p) = (ok, Some e) ->
     CentralPushConfigReady' c
     = (Returned false, ["Skip pushing badges: " ++ Error e ++ newline], [ConfigPush.If p]))
  /\ (CheckIf (ConfigPush.If p) = (false, None) ->
      (forall q, Push c = Some q ->
         CentralPushConfigReady' c
         = (Returned false,
            ["Skip pushing badges: the condition in the `if` section is not met ("
             ++ ConfigPush.If q ++ ")" ++ newline],
            [ConfigPush.If p]))
      /\ (Push c = None ->
          CentralPushConfigReady' c = (NilDereference, [], [ConfigPush.If p]))).
Proof.
  intros E En P Pe G. apply String.eqb_neq in G.
  unfold CentralPushConfigReady, CentralConfigReady. rewrite E, En, P, Pe, G.
  cbn [negb orb]. split.
  - intros ok e K. now rewrite K.
  - intros K. rewrite K. cbn [negb]. split.
    + intros q Q. now rewrite Q.
    + intros Q. now rewrite Q.
Qed.

End CentralFacts.

(** X16 on the reference configuration, in [/repo]. *)
Lemma BuildCentralConfig_paths_witness :
  exists cc',
    central.BuildCentralConfig reference_fs.Join reference_fs.Clean reference_fs.Dir
      "reports" "badges" reference_central
    = (None, central.set_Central reference_central cc')
    /\ central.ConfigCentral.Root cc' = "/repo/."
    /\ central.ConfigCentral.Reports cc' = "reports"
    /\ central.ConfigCentral.Badges cc' = "/repo/badges".
Proof.
  refine (BuildCentralConfig_paths reference_fs.Join reference_fs.Clean reference_fs.Dir
            "reports" "badges" reference_central _ _ eq_refl).
  discriminate.
Defined.

(** X17 on the reference configuration. *)
Lemma BuildCentralConfig_idempotent_witness :
  let build :=
    central.BuildCentralConfig reference_fs.Join reference_fs.Clean reference_fs.Dir
      "reports" "badges" in
  build (snd (build reference_central)) = build reference_central.
Proof.
  refine (BuildCentralConfig_idempotent reference_fs.Join reference_fs.Clean reference_fs.Dir
            "reports" "badges" reference_central _).
  intros p. exact (StringsFacts.HasPrefix_app "/" ("repo/" ++ p)).
Defined.

(** X19 where the central condition is not met: the line written names the
    condition of the top-level push section. *)
Lemma push_skip_messages_witness :
  central.CentralPushConfigReady (fun _ => (false, None)) reference_central
  = (Returned false,
     ["Skip pushing badges: the condition in the `if` section is not met (false)"
      ++ central.newline],
     ["is_default_branch"]).
Proof.
  refine (proj1 (proj2 (push_skip_messages (fun _ => (false, None)) reference_central
                          _ _ eq_refl eq_refl eq_refl eq_refl _) eq_refl) _ eq_refl).
  discriminate.
Defined.
